(** * svupa: client-side mirror of a remote table

    A shallow embedding of [src/utils/table.ts], [src/utils/tableRow.ts] and
    [src/utils/tableStore.ts], and the properties of the reconciliation
    engine proved over it.

    Conventions of the embedding.
    - JavaScript values are the inductive [jsval]; reading a property of
      [undefined] or [null] throws, which is the [Throw TypeError] result.
    - Numbers are mathematical integers ([Z]); no row of the development
      holds a fractional number or [NaN].
    - A [Map] is an association list in insertion order ([JsMap]).
    - A method that mutates [this] and may throw is a function from the
      table to an [outcome], which keeps the table as it was when the
      exception left the method.
    - [update] and [delete] are cut at their single [await]: the part
      before it ([update_begin], [delete_begin]) and the part after it
      ([update_settle], [delete_settle]); the remote answer is an input of
      the second part, and other calls may run in between.
    - [_addInitialRows] runs against a backend given as a function from
      queries to answers, and reports the queries it awaited.
    - Files of the repository that are not among the sources
      ([primaryKeys.ts], [condition.ts], [mapStore.ts]) appear through what
      the three files use of them. *)

From Stdlib Require Import List ZArith Bool String Lia.
Import ListNotations.
Open Scope string_scope.
Open Scope Z_scope.

(* ================================================================== *)
(** ** JavaScript values *)

(** Primitive values. *)
Inductive prim : Type :=
| PUndefined
| PNull
| PBool (b : bool)
| PNum (n : Z)
| PStr (s : string).

(** The objects the three source files pass around.  Columns of a plain
    row hold primitives.
    - [VObj]: a plain row object ([Partial<T>], a fetched or pushed row);
    - [VTableRow]: an instance of class [TableRow] (fields [data], [id]);
    - [VClone]: what [structuredClone] makes of a [TableRow]: a plain
      object with the same two fields, no longer an instance of the class;
    - [VBackupRow]: a [BackupRow<T>] (fields [row], [subscribers]). *)
Inductive jsval : Type :=
| VPrim (p : prim)
| VObj (fields : list (string * prim))
| VTableRow (data : jsval) (id : string)
| VClone (data : jsval) (id : string)
| VBackupRow (row : jsval) (subscribers : Z).

Definition undefined : jsval := VPrim PUndefined.

Inductive exn : Type :=
| TypeError                  (* property read on undefined or null *)
| RowNotFoundInBackup        (* new Error("Row not found in backup") *)
| KeyError.                  (* whatever primaryKeys.generateRowID may throw *)

Inductive result (A : Type) : Type :=
| Ok (a : A)
| Throw (e : exn).
Arguments Ok {A} a.
Arguments Throw {A} e.

Definition rbind {A B} (r : result A) (k : A -> result B) : result B :=
  match r with
  | Ok a => k a
  | Throw e => Throw e
  end.

Declare Scope result_scope.
Delimit Scope result_scope with result.
Notation "'let?' x ':=' r 'in' k" := (rbind r (fun x => k))
  (at level 10, x pattern, r at level 100, k at level 200) : result_scope.

Definition prim_eq_dec (p q : prim) : {p = q} + {p <> q}.
Proof.
  decide equality;
    [apply bool_dec | apply Z.eq_dec | apply string_dec].
Defined.

(** [ToBoolean] of a primitive. *)
Definition prim_truthy (p : prim) : bool :=
  match p with
  | PUndefined | PNull => false
  | PBool b => b
  | PNum n => negb (n =? 0)
  | PStr s => negb (String.eqb s "")
  end.

(** [ToBoolean]: every object is truthy. *)
Definition truthy (v : jsval) : bool :=
  match v with
  | VPrim p => prim_truthy p
  | _ => true
  end.

(** [v instanceof TableRow]. *)
Definition instanceof_TableRow (v : jsval) : bool :=
  match v with
  | VTableRow _ _ => true
  | _ => false
  end.

Fixpoint lookup_field (k : string) (fs : list (string * prim)) : prim :=
  match fs with
  | [] => PUndefined
  | (k', p) :: fs' => if String.eqb k k' then p else lookup_field k fs'
  end.

(** [v[k]], for the keys the sources read: the columns of a row and the
    fields [data], [id], [row], [subscribers].  What a value inherits from
    its prototype (such as [toString]) and the [length] and indices of a
    string are not columns of a row and are left out. *)
Definition get_prop (v : jsval) (k : string) : result jsval :=
  match v with
  | VPrim PUndefined | VPrim PNull => Throw TypeError
  | VPrim _ => Ok undefined
  | VObj fs => Ok (VPrim (lookup_field k fs))
  | VTableRow d i | VClone d i =>
      if String.eqb k "data" then Ok d
      else if String.eqb k "id" then Ok (VPrim (PStr i))
      else Ok undefined
  | VBackupRow r n =>
      if String.eqb k "row" then Ok r
      else if String.eqb k "subscribers" then Ok (VPrim (PNum n))
      else Ok undefined
  end.

(** [v.id], used as a [Map] key.  No object of the development holds an
    object under [id], so the key is a primitive. *)
Definition get_id (v : jsval) : result prim :=
  match v with
  | VPrim PUndefined | VPrim PNull => Throw TypeError
  | VPrim _ => Ok PUndefined
  | VObj fs => Ok (lookup_field "id" fs)
  | VTableRow _ i | VClone _ i => Ok (PStr i)
  | VBackupRow _ _ => Ok PUndefined
  end.

(** [structuredClone(v)]: a deep copy.  Values are immutable here, so the
    copy has the same content; a class instance comes back as a plain
    object. *)
Definition structuredClone (v : jsval) : jsval :=
  match v with
  | VTableRow d i => VClone d i
  | _ => v
  end.

(* ================================================================== *)
(** ** [Map]: association list in insertion order, keys compared by value *)

Module JsMap.
Section Ops.
Variable V : Type.

Definition t := list (prim * V).

Definition empty : t := [].

Fixpoint get (k : prim) (m : t) : option V :=
  match m with
  | [] => None
  | (k', v) :: m' => if prim_eq_dec k k' then Some v else get k m'
  end.

Definition has (k : prim) (m : t) : bool :=
  match get k m with
  | Some _ => true
  | None => false
  end.

(** [set]: an existing key keeps its place, a new one goes last. *)
Fixpoint set (k : prim) (v : V) (m : t) : t :=
  match m with
  | [] => [(k, v)]
  | (k', v') :: m' =>
      if prim_eq_dec k k' then (k, v) :: m' else (k', v') :: set k v m'
  end.

Fixpoint delete (k : prim) (m : t) : t :=
  match m with
  | [] => []
  | (k', v') :: m' =>
      if prim_eq_dec k k' then m' else (k', v') :: delete k m'
  end.

Definition keys (m : t) : list prim := map fst m.
End Ops.
Arguments empty {V}.
Arguments get {V} k m.
Arguments has {V} k m.
Arguments set {V} k v m.
Arguments delete {V} k m.
Arguments keys {V} m.
End JsMap.

(* ================================================================== *)
(** ** [class PessimisticBackup] (table.ts, lines 341-382) *)

(** [subscribers] counts in [Z]: the increments of a run stay far below
    the 2^53 where a JavaScript number stops counting. *)
Record BackupRow : Type := mkBackupRow {
  row : jsval;
  subscribers : Z
}.

Module PessimisticBackup.

(** The field [data : Map<string, BackupRow<T>>]. *)
Definition t := JsMap.t BackupRow.

Definition new : t := JsMap.empty.

Definition has (id : prim) (d : t) : bool := JsMap.has id d.

Definition get (id : prim) (d : t) : option BackupRow := JsMap.get id d.

(** [backup(row)]: the new log. *)
Definition backup (r : jsval) (d : t) : result t :=
  (let? id := get_id r in
   if has id d then
     match get id d with
     | Some b =>
         Ok (JsMap.set id (mkBackupRow (row b) (subscribers b + 1)) d)
     | None => Throw TypeError
     end
   else
     Ok (JsMap.set id (mkBackupRow (structuredClone r) 1) d))%result.

(** [release(row)]: the returned [backupRow.row] and the new log. *)
Definition release (r : jsval) (d : t) : result (jsval * t) :=
  (let? id := get_id r in
   if negb (has id d) then Throw RowNotFoundInBackup
   else
     match get id d with
     | None => Throw TypeError
     | Some b =>
         let n := subscribers b - 1 in
         if n =? 0
         then Ok (row b, JsMap.delete id d)
         else Ok (row b, JsMap.set id (mkBackupRow (row b) n) d)
     end)%result.

(** [get(id)] as the caller sees it: the [BackupRow] object or
    [undefined]. *)
Definition get_value (id : prim) (d : t) : jsval :=
  match get id d with
  | Some b => VBackupRow (row b) (subscribers b)
  | None => undefined
  end.

(** [subscribers(id)]: [this.data.get(id).subscribers]. *)
Definition subscribers (id : prim) (d : t) : result Z :=
  match get id d with
  | Some b => Ok (subscribers b)
  | None => Throw TypeError
  end.

End PessimisticBackup.

(* ================================================================== *)
(** ** Conditions and [class TableRow] (tableRow.ts) *)

(** Modelled from the spec: [Condition] and [Conditions] of [condition.ts]
    are not among the sources.  Section 3: a condition is a column, an
    operator and a literal value, a ConditionSet an ordered list of
    conditions.  The field names are those [tableRow.ts] reads
    ([condition.type], [condition.column], [condition.value]); the
    operator is a string, the literal a primitive. *)
Record Condition : Type := mkCondition {
  type : string;
  column : string;
  value : prim
}.

Definition Conditions := list Condition.

(** [a === b] against a primitive literal: same type and same value; an
    object is never strictly equal to a primitive. *)
Definition strict_eq (a : jsval) (b : prim) : bool :=
  match a with
  | VPrim p => if prim_eq_dec p b then true else false
  | _ => false
  end.

(** The four relational operators of the language, [a > b], [a < b],
    [a >= b], [a <= b], with their coercions of mixed operands, are an
    interface: no property below depends on how they compare. *)
Class Relational : Type := {
  js_gt : jsval -> prim -> bool;
  js_lt : jsval -> prim -> bool;
  js_gte : jsval -> prim -> bool;
  js_lte : jsval -> prim -> bool
}.

(** [primaryKeys] of [primaryKeys.ts], which is not among the sources: the
    one method the three files call, taken as a parameter.  It may throw. *)
Record primaryKeys : Type := mkPrimaryKeys {
  generateRowID : jsval -> result string
}.

(** [new TableRow(data, keys)]. *)
Definition new_TableRow (data : jsval) (keys : primaryKeys) : result jsval :=
  (let? id := generateRowID keys data in
   Ok (VTableRow data id))%result.

Section TableRow.
Context {rel : Relational}.

(** [this.data[condition.column]]. *)
Definition cell (this : jsval) (c : Condition) : result jsval :=
  (let? data := get_prop this "data" in
   get_prop data (column c))%result.

Definition checkCondition (this : jsval) (c : Condition) : result bool :=
  (if String.eqb (type c) "eq" then
     let? x := cell this c in Ok (strict_eq x (value c))
   else if String.eqb (type c) "neq" then
     let? x := cell this c in Ok (negb (strict_eq x (value c)))
   else if String.eqb (type c) "gt" then
     let? x := cell this c in Ok (js_gt x (value c))
   else if String.eqb (type c) "lt" then
     let? x := cell this c in Ok (js_lt x (value c))
   else if String.eqb (type c) "gte" then
     let? x := cell this c in Ok (js_gte x (value c))
   else if String.eqb (type c) "lte" then
     let? x := cell this c in Ok (js_lte x (value c))
   else Ok false)%result.

Fixpoint checkConditions (this : jsval) (conditions : Conditions)
  : result bool :=
  match conditions with
  | [] => Ok true
  | condition :: rest =>
      (let? holds := checkCondition this condition in
       if negb holds then Ok false
       else checkConditions this rest)%result
  end.
End TableRow.

(* ================================================================== *)
(** ** [class TableStore] (tableStore.ts) *)

Module TableStore.

(** Modelled from the spec: [mapStore] of [mapStore.ts] is not among the
    sources.  Section 4.3 (RowCache): an ordered map of identity to row;
    [upsert] inserts at the end if the identity is absent, else replaces
    the data in place without reordering; removal by identity is a no-op
    if absent. *)
Definition t := JsMap.t jsval.

Definition new : t := JsMap.empty.

(** Modelled from the spec: [mapStore.upsert(id, data)], section 4.3:
    insert at the end if the identity is absent, else replace the data in
    place without reordering. *)
Definition store_upsert (id : prim) (data : jsval) (s : t) : t :=
  JsMap.set id data s.

(** Modelled from the spec: [mapStore.remove(id)], section 4.3: remove by
    identity; no-op if absent. *)
Definition store_remove (id : prim) (s : t) : t := JsMap.delete id s.

(** Modelled from the spec: [mapStore.get(id)], section 4.3: the row or
    absent. *)
Definition store_get (id : prim) (s : t) : option jsval := JsMap.get id s.

Definition __convertRow (keys : primaryKeys) (r : jsval) : result jsval :=
  (if instanceof_TableRow r then Ok r
   else
     let? inner := get_prop r "row" in
     if truthy inner then Ok inner
     else new_TableRow r keys)%result.

Definition upsert (keys : primaryKeys) (r : jsval) (s : t) : result t :=
  (let? tableRow := __convertRow keys r in
   let? id := get_id tableRow in
   let? data := get_prop tableRow "data" in
   Ok (store_upsert id data s))%result.

Definition delete (keys : primaryKeys) (r : jsval) (s : t) : result t :=
  (let? tableRow := __convertRow keys r in
   let? id := get_id tableRow in
   Ok (store_remove id s))%result.

(** [getRow(id)]: by identity when [id] is a string, else by the identity
    generated from the key columns of [id]. *)
Definition getRow (keys : primaryKeys) (id : jsval) (s : t)
  : result (option jsval) :=
  match id with
  | VPrim (PStr i) => Ok (store_get (PStr i) s)
  | _ =>
      (let? i := generateRowID keys id in
       Ok (store_get (PStr i) s))%result
  end.

End TableStore.

(* ================================================================== *)
(** ** The remote backend, as [class Table] uses it *)

Module Prefilter.
Record t : Type := mk { value : string; key : string }.
End Prefilter.

(** A [Date] object; [None] is the invalid date.  Every [Date] object is
    truthy. *)
Record Date : Type := mkDate { time_value : option Z }.

(** A query built on the supabase client, as the calls that built it:
    [from(name)], [select("*")] or [select("*", {count: "exact", head:
    true})], [eq(key, value)], [range(start, end)]. *)
Module Query.
Record t : Type := mk {
  from : string;
  head_count : bool;
  eq : option (string * string);
  range : option (Z * Z);
  translated : option Conditions
}.
End Query.

(** Modelled from the spec: [Conditions.toQuery] of [condition.ts] is not
    among the sources.  Section 6: the ConditionSet-to-query translator
    scopes a query by the conditions; the query records the set it was
    scoped by. *)
Definition toQuery (conditions : Conditions) (q : Query.t) : Query.t :=
  Query.mk (Query.from q) (Query.head_count q) (Query.eq q) (Query.range q)
           (Some conditions).

(** What awaiting a query resolves to. *)
Module Response.
Record t : Type := mk {
  data : option (list jsval);      (* null when absent *)
  count : option Z;                (* null when absent *)
  error : bool                     (* a truthy [error] *)
}.
End Response.

(** What a run of a method does to the outside. *)
Inductive effect : Type :=
| Awaited (q : Query.t)
| Warned.                          (* console.warn("error", ...) *)

(** The payload of a [postgres_changes] event. *)
Module Payload.
Record t : Type := mk {
  new : jsval;
  old : jsval;
  eventType : string;
  commit_timestamp : option Z
}.
End Payload.

(* ================================================================== *)
(** ** [class Table] (table.ts) *)

Record Table : Type := mkTable {
  name : string;
  keys : primaryKeys;
  __store : TableStore.t;
  conditions : Conditions;
  pessimisticBackup : PessimisticBackup.t;
  optimisticUpdates : bool;
  __prefilter : option Prefilter.t
}.

Definition with_store (t : Table) (s : TableStore.t) : Table :=
  mkTable (name t) (keys t) s (conditions t) (pessimisticBackup t)
          (optimisticUpdates t) (__prefilter t).

Definition with_backup (t : Table) (d : PessimisticBackup.t) : Table :=
  mkTable (name t) (keys t) (__store t) (conditions t) d
          (optimisticUpdates t) (__prefilter t).

(** The constructor, with the defaults of its optional arguments left to
    the caller. *)
Definition new_Table (name : string) (keys : primaryKeys)
    (optimistic : bool) (prefilter : option Prefilter.t) : Table :=
  mkTable name keys TableStore.new [] PessimisticBackup.new optimistic
          prefilter.

(** [filter(condition)] / [addCondition(condition)]. *)
Definition addCondition (c : Condition) (t : Table) : Table :=
  mkTable (name t) (keys t) (__store t) (conditions t ++ [c])%list
          (pessimisticBackup t) (optimisticUpdates t) (__prefilter t).

(** How a method call ends: it returns, or an exception leaves it; either
    way the table is as the call left it. *)
Inductive outcome (A : Type) : Type :=
| Returned (a : A) (t : Table)
| Thrown (e : exn) (t : Table).
Arguments Returned {A} a t.
Arguments Thrown {A} e t.

Definition M (A : Type) : Type := Table -> outcome A.

Definition ret {A} (a : A) : M A := fun t => Returned a t.

Definition bind {A B} (m : M A) (k : A -> M B) : M B :=
  fun t =>
    match m t with
    | Returned a t' => k a t'
    | Thrown e t' => Thrown e t'
    end.

(** A step that changes the table only if it does not throw. *)
Definition step (f : Table -> result Table) : M unit :=
  fun t =>
    match f t with
    | Ok t' => Returned tt t'
    | Throw e => Thrown e t
    end.

(** A call that answers and changes the table, or throws and leaves it. *)
Definition call {A} (f : Table -> result (A * Table)) : M A :=
  fun t =>
    match f t with
    | Ok (a, t') => Returned a t'
    | Throw e => Thrown e t
    end.

(** A read that may throw. *)
Definition read {A} (f : Table -> result A) : M A :=
  fun t =>
    match f t with
    | Ok a => Returned a t
    | Throw e => Thrown e t
    end.

Declare Scope method_scope.
Delimit Scope method_scope with method.
Notation "x <- m ;; k" := (bind m (fun x => k))
  (at level 61, m at next level, right associativity) : method_scope.
Notation "m ;; k" := (bind m (fun _ => k))
  (at level 61, right associativity) : method_scope.

Definition _upsertInternal (r : jsval) (timestamp : option Date)
    (t : Table) : result Table :=
  (let? tableRow :=
     (if instanceof_TableRow r then Ok r else new_TableRow r (keys t)) in
   let? ignore :=
     (match timestamp with
      | Some _ =>
          let? id := get_id tableRow in
          Ok (PessimisticBackup.has id (pessimisticBackup t))
      | None => Ok false
      end) in
   if (ignore : bool) then Ok t
   else
     let? s := TableStore.upsert (keys t) r (__store t) in
     Ok (with_store t s))%result.

Definition _deleteInternal (r : jsval) (t : Table) : result Table :=
  (let? s := TableStore.delete (keys t) r (__store t) in
   Ok (with_store t s))%result.

Definition _createPessimisticRowBackup (r : jsval) (t : Table)
  : result Table :=
  (let? d := PessimisticBackup.backup r (pessimisticBackup t) in
   Ok (with_backup t d))%result.

Definition _releasePessimisticRowBackup (r : jsval) (t : Table)
  : result (jsval * Table) :=
  (let? (snapshot, d) := PessimisticBackup.release r (pessimisticBackup t) in
   Ok (snapshot, with_backup t d))%result.

Definition _getPessimisticRowBackup (r : jsval) (t : Table) : result jsval :=
  (let? id := get_id r in
   Ok (PessimisticBackup.get_value id (pessimisticBackup t)))%result.

(** [({ status }) => (status >= 200) && (status < 300)]. *)
Definition succeeded (status : Z) : bool :=
  (status >=? 200) && (status <? 300).

Record UpdateResult : Type := mkUpdateResult {
  invokeTime : Date;
  status : bool
}.

Section Methods.
Context {rel : Relational}.

Definition __parseSubscriptionPayload (payload : Payload.t) (t : Table)
  : result (jsval * string * Date) :=
  (let event := Payload.eventType payload in
   let timestamp := mkDate (Payload.commit_timestamp payload) in
   let r :=
     if String.eqb event "DELETE" then Payload.old payload
     else Payload.new payload in
   let? tableRow := new_TableRow r (keys t) in
   Ok (tableRow, event, timestamp))%result.

(** The callback that [_subscribeToChannel] registers for
    [postgres_changes] (lines 77-91). *)
Definition on_postgres_changes (payload : Payload.t) (t : Table)
  : result Table :=
  (let? (tableRow, event, timestamp) :=
     __parseSubscriptionPayload payload t in
   let? relevant := checkConditions tableRow (conditions t) in
   if Bool.eqb relevant false then
     _deleteInternal tableRow t
   else if String.eqb event "INSERT" || String.eqb event "UPDATE" then
     _upsertInternal tableRow (Some timestamp) t
   else if String.eqb event "DELETE" then
     _deleteInternal tableRow t
   else Ok t)%result.
End Methods.

(** [update(row)] up to its [await] (lines 242-246). *)
Definition update_begin (r : jsval) : M unit :=
  fun t =>
    if optimisticUpdates t then
      (step (_createPessimisticRowBackup r) ;;
       step (_upsertInternal r None))%method t
    else Returned tt t.

(** [update(row)] from its [await] on (lines 250-261): [http] is the
    status the remote upsert answered, [now] the clock read at line 242. *)
Definition update_settle (now : Date) (r : jsval) (http : Z)
  : M UpdateResult :=
  fun t =>
    let success := succeeded http in
    ((if optimisticUpdates t && success then
        call (_releasePessimisticRowBackup r) ;; ret tt
      else
        revokedRow <- read (_getPessimisticRowBackup r) ;;
        step (_upsertInternal revokedRow None)) ;;
     ret (mkUpdateResult now success))%method t.

(** [update(row)] when nothing else runs while it awaits. *)
Definition update (now : Date) (r : jsval) (http : Z) : M UpdateResult :=
  (update_begin r ;; update_settle now r http)%method.

(** [delete(row)] up to its [await] (lines 265-268). *)
Definition delete_begin (r : jsval) : M unit :=
  fun t =>
    if optimisticUpdates t then
      (step (_createPessimisticRowBackup r) ;;
       step (_deleteInternal r))%method t
    else Returned tt t.

(** [delete(row)] from its [await] on (lines 273-287). *)
Definition delete_settle (r : jsval) (http : Z) : M bool :=
  fun t =>
    let success := succeeded http in
    (if optimisticUpdates t then
       if success then
         call (_releasePessimisticRowBackup r) ;; ret true
       else
         revokedRow <- read (_getPessimisticRowBackup r) ;;
         step (_upsertInternal revokedRow None) ;;
         ret false
     else
       call (_releasePessimisticRowBackup r) ;;
       ret success)%method t.

(** [delete(row)] when nothing else runs while it awaits. *)
Definition delete (r : jsval) (http : Z) : M bool :=
  (delete_begin r ;; delete_settle r http)%method.

(* ------------------------------------------------------------------ *)
(** *** [_addInitialRows] (lines 157-212) *)

Definition pageSize : Z := 1000.

Definition prefilter_eq (t : Table) : option (string * string) :=
  match __prefilter t with
  | Some p => Some (Prefilter.key p, Prefilter.value p)
  | None => None
  end.

(** [from(name).select("*", { count: "exact", head: true })], then
    [eq(key, value)] under a prefilter. *)
Definition countQuery (t : Table) : Query.t :=
  Query.mk (name t) true (prefilter_eq t) None None.

(** [from(name).select("*")], [eq] under a prefilter, [range(start, end)],
    then [conditions.toQuery]. *)
Definition fetchQuery (t : Table) (start end_ : Z) : Query.t :=
  toQuery (conditions t)
          (Query.mk (name t) false (prefilter_eq t) (Some (start, end_)) None).

(** [for (const row of data ?? []) this._upsertInternal(row)]. *)
Fixpoint ingest (rows : list jsval) : M unit :=
  match rows with
  | [] => ret tt
  | r :: rest => (step (_upsertInternal r None) ;; ingest rest)%method
  end.

Definition or_empty (d : option (list jsval)) : list jsval :=
  match d with
  | Some rows => rows
  | None => []
  end.

(** The [while (start < count)] loop; [None] when [fuel] iterations did
    not reach its end. *)
Fixpoint fetch_loop (fuel : nat) (supabase : Query.t -> Response.t)
    (count start : Z) (t : Table) : option (list effect * outcome unit) :=
  match fuel with
  | O => None
  | S fuel' =>
      if start <? count then
        let end_ := start + pageSize - 1 in
        let q := fetchQuery t start end_ in
        let r := supabase q in
        if Response.error r then
          Some ([Awaited q; Warned], Returned tt t)
        else
          match ingest (or_empty (Response.data r)) t with
          | Thrown e t' => Some ([Awaited q], Thrown e t')
          | Returned _ t' =>
              match fetch_loop fuel' supabase count (start + pageSize) t' with
              | Some (effects, o) => Some (Awaited q :: effects, o)
              | None => None
              end
          end
      else Some ([], Returned tt t)
  end.

(** [!count]. *)
Definition no_count (c : option Z) : bool :=
  match c with
  | None => true
  | Some n => n =? 0
  end.

Definition _addInitialRows (supabase : Query.t -> Response.t) (t : Table)
  : option (list effect * outcome unit) :=
  let q := countQuery t in
  let r := supabase q in
  if Response.error r || no_count (Response.count r) then
    Some (Awaited q :: (if Response.error r then [Warned] else []),
          Returned tt t)
  else
    match Response.count r with
    | None => Some ([Awaited q], Returned tt t)   (* excluded by [!count] *)
    | Some count =>
        match fetch_loop (S (Z.to_nat count)) supabase count 0 t with
        | Some (effects, o) => Some (Awaited q :: effects, o)
        | None => None
        end
    end.

(* ------------------------------------------------------------------ *)
(** *** The remaining methods *)

(** [getRow(keys)]. *)
Definition getRow (k : jsval) (t : Table) : result (option jsval) :=
  TableStore.getRow (keys t) k (__store t).

(* ================================================================== *)
(** ** Vocabulary of the properties *)

(** The states of the backup log that [backup] and [release] reach from
    the empty log of the constructor. *)
Inductive reachable : PessimisticBackup.t -> Prop :=
| reach_new : reachable PessimisticBackup.new
| reach_backup r d d' :
    reachable d -> PessimisticBackup.backup r d = Ok d' -> reachable d'
| reach_release r d snapshot d' :
    reachable d -> PessimisticBackup.release r d = Ok (snapshot, d') ->
    reachable d'.

(** At most one entry per identity. *)
Definition one_entry_per_identity {V} (m : JsMap.t V) : Prop :=
  NoDup (JsMap.keys m).

(** Every entry has at least one subscriber. *)
Definition refcounts_positive (d : PessimisticBackup.t) : Prop :=
  Forall (fun entry => 1 <= subscribers (snd entry)) d.

(** A call on the backup log. *)
Inductive op : Type :=
| Backup (r : jsval)
| Release (r : jsval).

Definition apply_op (o : op) (d : PessimisticBackup.t)
  : result PessimisticBackup.t :=
  match o with
  | Backup r => PessimisticBackup.backup r d
  | Release r =>
      (let? (_, d') := PessimisticBackup.release r d in Ok d')%result
  end.

(** Runs the calls in order; [Some] of the final log when every call
    returned and the entry of [id] was there after each of them. *)
Fixpoint run_keeping (id : prim) (ops : list op) (d : PessimisticBackup.t)
  : option PessimisticBackup.t :=
  match ops with
  | [] => Some d
  | o :: rest =>
      match apply_op o d with
      | Ok d' =>
          if PessimisticBackup.has id d' then run_keeping id rest d'
          else None
      | Throw _ => None
      end
  end.

(** [pages] consecutive windows of [pageSize] rows, the first one at
    [start]. *)
Fixpoint windows_from (start : Z) (pages : nat) : list (Z * Z) :=
  match pages with
  | O => []
  | S pages' =>
      (start, start + pageSize - 1) :: windows_from (start + pageSize) pages'
  end.

Definition windows (pages : nat) : list (Z * Z) := windows_from 0 pages.

(** The query of a window, and the rows the backend answers to it. *)
Definition window_query (t : Table) (w : Z * Z) : Query.t :=
  fetchQuery t (fst w) (snd w).

Definition rows_of (supabase : Query.t -> Response.t) (t : Table)
    (w : Z * Z) : list jsval :=
  or_empty (Response.data (supabase (window_query t w))).

(** Number of windows that cover [count] rows. *)
Definition page_count (count : Z) : nat :=
  Z.to_nat ((count + pageSize - 1) / pageSize).

Definition window_of (e : effect) : option (Z * Z) :=
  match e with
  | Awaited q => Query.range q
  | Warned => None
  end.

(** The windows of the queries a run awaited, in order. *)
Fixpoint windows_awaited (effects : list effect) : list (Z * Z) :=
  match effects with
  | [] => []
  | e :: rest =>
      match window_of e with
      | Some w => w :: windows_awaited rest
      | None => windows_awaited rest
      end
  end.

(** The six operators [checkCondition] knows. *)
Definition recognized_operators : list string :=
  ["eq"; "neq"; "gt"; "lt"; "gte"; "lte"].

(** [primaryKeys.generateRowID] answers on every [BackupRow] object. *)
Definition keys_accept_backup_rows (k : primaryKeys) : Prop :=
  forall r n, exists s, generateRowID k (VBackupRow r n) = Ok s.

(** What ingestion leaves alone: everything but the cache. *)
Definition same_settings (t t' : Table) : Prop :=
  t' = with_store t (__store t').

(** The table a call leaves, whether it returned or threw. *)
Definition table_after {A} (o : outcome A) : Table :=
  match o with
  | Returned _ t => t
  | Thrown _ t => t
  end.

(** The backup log is well formed. *)
Definition log_ok (t : Table) : Prop :=
  one_entry_per_identity (pessimisticBackup t)
  /\ refcounts_positive (pessimisticBackup t).

(** [backup] of each row in turn. *)
Fixpoint backup_all (rows : list jsval) (d : PessimisticBackup.t)
  : result PessimisticBackup.t :=
  match rows with
  | [] => Ok d
  | r :: rest =>
      (let? d' := PessimisticBackup.backup r d in backup_all rest d')%result
  end.

(** [release] of each row in turn: the snapshots returned and the log. *)
Fixpoint release_all (rows : list jsval) (d : PessimisticBackup.t)
  : result (list jsval * PessimisticBackup.t) :=
  match rows with
  | [] => Ok ([], d)
  | r :: rest =>
      (let? (snapshot, d') := PessimisticBackup.release r d in
       let? (snapshots, d'') := release_all rest d' in
       Ok (snapshot :: snapshots, d''))%result
  end.

(** A method keeps the backup log well formed, however it ends. *)
Definition keeps_log_ok {A} (m : M A) : Prop :=
  forall t, log_ok t -> log_ok (table_after (m t)).

(* ------------------------------------------------------------------ *)
(** *** Concrete data for the examples *)

(** The relational operators on integer cells, which is all the examples
    compare; a comparison with [undefined] is false, as in the language. *)
Definition on_integers (cmp : Z -> Z -> bool) (a : jsval) (b : prim) : bool :=
  match a, b with
  | VPrim (PNum x), PNum y => cmp x y
  | _, _ => false
  end.

#[local] Instance integer_cells : Relational := {
  js_gt := on_integers Z.gtb;
  js_lt := on_integers Z.ltb;
  js_gte := on_integers Z.geb;
  js_lte := on_integers Z.leb
}.

(** A [primaryKeys] over the single key column [id] holding a string. *)
Definition id_column : primaryKeys :=
  mkPrimaryKeys (fun r =>
    match r with
    | VPrim PUndefined | VPrim PNull => Throw TypeError
    | VObj fs =>
        match lookup_field "id" fs with
        | PStr s => Ok s
        | _ => Ok "undefined"
        end
    | _ => Ok "undefined"
    end).

(** Row ["1"] of table [scores] with a given score. *)
Definition score_data (n : Z) : jsval :=
  VObj [("id", PStr "1"); ("score", PNum n)].

Definition score_row (n : Z) : jsval := VTableRow (score_data n) "1".

(** The table [scores], caching row ["1"] with score 0. *)
Definition scores (optimistic : bool) : Table :=
  mkTable "scores" id_column [(PStr "1", score_data 0)] []
          PessimisticBackup.new optimistic None.

(** The table [scores] while an optimistic [update] of row ["1"] to score
    1 awaits its remote answer. *)
Definition in_flight : Table :=
  mkTable "scores" id_column [(PStr "1", score_data 1)] []
          [(PStr "1", mkBackupRow (VClone (score_data 1) "1") 1)] true None.

(** A push event of the given kind about row ["1"] with the given score. *)
Definition pushed (kind : string) (n : Z) : Payload.t :=
  Payload.mk (score_data n) (score_data n) kind (Some 1700000000000).

Definition below_five : Condition := mkCondition "lt" "score" (PNum 5).

(** A backend that counts 2500 rows and answers one row per window. *)
Definition backend_2500 (q : Query.t) : Response.t :=
  Response.mk
    (if Query.head_count q then None
     else
       match Query.range q with
       | Some (0, _) => Some [VObj [("id", PStr "a"); ("score", PNum 1)]]
       | Some (1000, _) => Some [VObj [("id", PStr "b"); ("score", PNum 2)]]
       | Some (2000, _) => Some [VObj [("id", PStr "c"); ("score", PNum 3)]]
       | _ => Some []
       end)
    (if Query.head_count q then Some 2500 else None)
    false.

(* ================================================================== *)
(** * Properties *)

(** ** Values *)

(** [get_id] is the property read [v.id]. *)
Lemma get_id_is_get_prop v :
  get_prop v "id" = (let? p := get_id v in Ok (VPrim p))%result.
Proof. destruct v as [[| | | |]| | | |]; reflexivity. Qed.

(** ** The [Map] *)

Section JsMapFacts.
Context {V : Type}.
Implicit Types (m : JsMap.t V) (k : prim) (v : V).

Lemma get_set_same m k v : JsMap.get k (JsMap.set k v m) = Some v.
Proof.
  induction m as [|[k' v'] m IH]; simpl.
  - destruct (prim_eq_dec k k); congruence.
  - destruct (prim_eq_dec k k') as [->|Hne]; simpl.
    + destruct (prim_eq_dec k' k'); congruence.
    + destruct (prim_eq_dec k k'); congruence.
Qed.

Lemma get_set_other m k k' v :
  k' <> k -> JsMap.get k' (JsMap.set k v m) = JsMap.get k' m.
Proof.
  intros Hne. induction m as [|[k0 v0] m IH]; simpl.
  - destruct (prim_eq_dec k' k); congruence.
  - destruct (prim_eq_dec k k0) as [->|Hk]; simpl.
    + destruct (prim_eq_dec k' k0); congruence.
    + destruct (prim_eq_dec k' k0); congruence.
Qed.

Lemma get_none_not_in m k : JsMap.get k m = None <-> ~ In k (JsMap.keys m).
Proof.
  induction m as [|[k' v'] m IH]; simpl.
  - tauto.
  - destruct (prim_eq_dec k k') as [->|Hne].
    + split; [discriminate | intros H; exfalso; apply H; now left].
    + rewrite IH. split.
      * intros H [He|Hin]; [congruence | tauto].
      * intros H Hin. apply H. now right.
Qed.

Lemma keys_set_present m k v :
  JsMap.has k m = true -> JsMap.keys (JsMap.set k v m) = JsMap.keys m.
Proof.
  unfold JsMap.has.
  induction m as [|[k' v'] m IH]; simpl; [discriminate|].
  destruct (prim_eq_dec k k') as [->|Hne]; simpl; [reflexivity|].
  intros H. now rewrite IH.
Qed.

Lemma keys_set_absent m k v :
  JsMap.has k m = false ->
  JsMap.keys (JsMap.set k v m) = (JsMap.keys m ++ [k])%list.
Proof.
  unfold JsMap.has.
  induction m as [|[k' v'] m IH]; simpl; [reflexivity|].
  destruct (prim_eq_dec k k') as [->|Hne]; simpl; [discriminate|].
  intros H. now rewrite IH.
Qed.

Lemma has_false_get m k : JsMap.has k m = false <-> JsMap.get k m = None.
Proof.
  unfold JsMap.has. destruct (JsMap.get k m); split; congruence.
Qed.

Lemma has_true_get m k :
  JsMap.has k m = true <-> exists v, JsMap.get k m = Some v.
Proof.
  unfold JsMap.has. destruct (JsMap.get k m) as [v|]; split.
  - eauto.
  - reflexivity.
  - discriminate.
  - intros [v H]. discriminate.
Qed.

Lemma set_one_entry m k v :
  one_entry_per_identity m -> one_entry_per_identity (JsMap.set k v m).
Proof.
  unfold one_entry_per_identity. intros Hnd.
  destruct (JsMap.has k m) eqn:Hhas.
  - now rewrite keys_set_present.
  - rewrite keys_set_absent by assumption.
    apply NoDup_app; [assumption | repeat constructor; simpl; tauto |].
    intros x Hx [<-|[]].
    apply has_false_get, get_none_not_in in Hhas. contradiction.
Qed.

Lemma in_keys_delete m k k' :
  In k' (JsMap.keys (JsMap.delete k m)) -> In k' (JsMap.keys m).
Proof.
  induction m as [|[k0 v0] m IH]; simpl; [tauto|].
  destruct (prim_eq_dec k k0); simpl; tauto.
Qed.

Lemma delete_one_entry m k :
  one_entry_per_identity m -> one_entry_per_identity (JsMap.delete k m).
Proof.
  unfold one_entry_per_identity.
  induction m as [|[k0 v0] m IH]; simpl; intros Hnd; [assumption|].
  inversion Hnd as [|? ? Hnin Hnd']; subst.
  destruct (prim_eq_dec k k0); simpl; [assumption|].
  constructor; [|now apply IH].
  intros Hin. apply Hnin. eapply in_keys_delete, Hin.
Qed.

Lemma get_delete_same m k :
  one_entry_per_identity m -> JsMap.get k (JsMap.delete k m) = None.
Proof.
  unfold one_entry_per_identity.
  induction m as [|[k0 v0] m IH]; simpl; intros Hnd; [reflexivity|].
  inversion Hnd as [|? ? Hnin Hnd']; subst.
  destruct (prim_eq_dec k k0) as [->|Hne]; simpl.
  - now apply get_none_not_in.
  - destruct (prim_eq_dec k k0); [contradiction | now apply IH].
Qed.

Lemma get_delete_other m k k' :
  k' <> k -> JsMap.get k' (JsMap.delete k m) = JsMap.get k' m.
Proof.
  intros Hne. induction m as [|[k0 v0] m IH]; simpl; [reflexivity|].
  destruct (prim_eq_dec k k0) as [->|Hk]; simpl.
  - destruct (prim_eq_dec k' k0); congruence.
  - destruct (prim_eq_dec k' k0); congruence.
Qed.

Lemma in_set m k v entry :
  In entry (JsMap.set k v m) -> entry = (k, v) \/ In entry m.
Proof.
  induction m as [|[k0 v0] m IH]; simpl.
  - intros [<-|[]]. now left.
  - destruct (prim_eq_dec k k0); simpl.
    + intros [<-|Hin]; auto.
    + intros [<-|Hin]; auto. destruct (IH Hin); auto.
Qed.

Lemma in_delete m k entry : In entry (JsMap.delete k m) -> In entry m.
Proof.
  induction m as [|[k0 v0] m IH]; simpl; [tauto|].
  destruct (prim_eq_dec k k0); simpl; [tauto|].
  intros [<-|Hin]; auto.
Qed.

Lemma get_in m k v : JsMap.get k m = Some v -> In (k, v) m.
Proof.
  induction m as [|[k0 v0] m IH]; simpl; [discriminate|].
  destruct (prim_eq_dec k k0) as [->|Hne].
  - intros [= ->]. now left.
  - intros H. right. now apply IH.
Qed.
End JsMapFacts.

(** ** The backup log *)

Lemma backup_absent r id d :
  get_id r = Ok id -> PessimisticBackup.get id d = None ->
  PessimisticBackup.backup r d
  = Ok (JsMap.set id (mkBackupRow (structuredClone r) 1) d).
Proof.
  intros Hid Hget. unfold PessimisticBackup.backup. rewrite Hid. simpl.
  unfold PessimisticBackup.has.
  apply has_false_get in Hget. now rewrite Hget.
Qed.

Lemma backup_present r id d b :
  get_id r = Ok id -> PessimisticBackup.get id d = Some b ->
  PessimisticBackup.backup r d
  = Ok (JsMap.set id (mkBackupRow (row b) (subscribers b + 1)) d).
Proof.
  intros Hid Hget. unfold PessimisticBackup.backup. rewrite Hid. simpl.
  unfold PessimisticBackup.has, JsMap.has.
  unfold PessimisticBackup.get in Hget |- *. now rewrite Hget.
Qed.

Lemma release_absent r id d :
  get_id r = Ok id -> PessimisticBackup.has id d = false ->
  PessimisticBackup.release r d = Throw RowNotFoundInBackup.
Proof.
  intros Hid Hhas. unfold PessimisticBackup.release. rewrite Hid. simpl.
  now rewrite Hhas.
Qed.

Lemma release_present r id d b :
  get_id r = Ok id -> PessimisticBackup.get id d = Some b ->
  PessimisticBackup.release r d
  = Ok (row b,
        if subscribers b - 1 =? 0 then JsMap.delete id d
        else JsMap.set id (mkBackupRow (row b) (subscribers b - 1)) d).
Proof.
  intros Hid Hget. unfold PessimisticBackup.release. rewrite Hid. simpl.
  unfold PessimisticBackup.has, JsMap.has.
  unfold PessimisticBackup.get in Hget |- *. rewrite Hget. simpl.
  now destruct (subscribers b - 1 =? 0).
Qed.

(** A call of [backup] or [release] either throws or is one of the four
    cases above. *)
Lemma backup_inv r d d' :
  PessimisticBackup.backup r d = Ok d' ->
  exists id, get_id r = Ok id /\
    ((PessimisticBackup.get id d = None /\
      d' = JsMap.set id (mkBackupRow (structuredClone r) 1) d) \/
     (exists b, PessimisticBackup.get id d = Some b /\
      d' = JsMap.set id (mkBackupRow (row b) (subscribers b + 1)) d)).
Proof.
  intros H. destruct (get_id r) as [id|e] eqn:Hid.
  - exists id. split; [reflexivity|].
    destruct (PessimisticBackup.get id d) as [b|] eqn:Hget.
    + right. exists b. split; [reflexivity|].
      rewrite (backup_present _ _ _ _ Hid Hget) in H. congruence.
    + left. split; [reflexivity|].
      rewrite (backup_absent _ _ _ Hid Hget) in H. congruence.
  - unfold PessimisticBackup.backup in H. rewrite Hid in H. discriminate.
Qed.

Lemma release_inv r d snapshot d' :
  PessimisticBackup.release r d = Ok (snapshot, d') ->
  exists id b, get_id r = Ok id /\ PessimisticBackup.get id d = Some b /\
    snapshot = row b /\
    d' = (if subscribers b - 1 =? 0 then JsMap.delete id d
          else JsMap.set id (mkBackupRow (row b) (subscribers b - 1)) d).
Proof.
  intros H. destruct (get_id r) as [id|e] eqn:Hid.
  - destruct (PessimisticBackup.get id d) as [b|] eqn:Hget.
    + exists id, b. rewrite (release_present _ _ _ _ Hid Hget) in H.
      injection H as <- <-. auto.
    + apply has_false_get in Hget.
      rewrite (release_absent _ _ _ Hid Hget) in H. discriminate.
  - unfold PessimisticBackup.release in H. rewrite Hid in H. discriminate.
Qed.

Lemma refcounts_set d id b :
  refcounts_positive d -> 1 <= subscribers b ->
  refcounts_positive (JsMap.set id b d).
Proof.
  unfold refcounts_positive. rewrite !Forall_forall.
  intros H Hb entry Hin. apply in_set in Hin as [->|Hin]; auto.
Qed.

Lemma refcounts_delete d id :
  refcounts_positive d -> refcounts_positive (JsMap.delete id d).
Proof.
  unfold refcounts_positive. rewrite !Forall_forall.
  intros H entry Hin. apply H. eapply in_delete, Hin.
Qed.

Lemma refcounts_get d id b :
  refcounts_positive d -> PessimisticBackup.get id d = Some b ->
  1 <= subscribers b.
Proof.
  unfold refcounts_positive. rewrite Forall_forall.
  intros H Hget. apply get_in in Hget. apply (H _ Hget).
Qed.

Lemma reachable_invariant d :
  reachable d -> one_entry_per_identity d /\ refcounts_positive d.
Proof.
  induction 1 as [|r d d' _ [IHn IHp] Hb|r d s d' _ [IHn IHp] Hr].
  - split; constructor.
  - apply backup_inv in Hb as (id & _ & [[_ ->]|(b & Hget & ->)]).
    + split; [now apply set_one_entry | apply refcounts_set; simpl; [auto|lia]].
    + split; [now apply set_one_entry|].
      apply refcounts_set; [assumption|]. simpl.
      pose proof (refcounts_get _ _ _ IHp Hget). lia.
  - apply release_inv in Hr as (id & b & _ & Hget & _ & ->).
    destruct (subscribers b - 1 =? 0) eqn:Hz.
    + split; [now apply delete_one_entry | now apply refcounts_delete].
    + split; [now apply set_one_entry|].
      apply refcounts_set; [assumption|]. simpl.
      pose proof (refcounts_get _ _ _ IHp Hget). apply Z.eqb_neq in Hz. lia.
Qed.

Lemma apply_op_reachable o d d' :
  reachable d -> apply_op o d = Ok d' -> reachable d'.
Proof.
  intros Hr. destruct o as [r|r]; simpl.
  - intros H. eapply reach_backup; eauto.
  - destruct (PessimisticBackup.release r d) as [[s d'']|e] eqn:Hrel;
      simpl; [|discriminate].
    intros [= <-]. eapply reach_release; eauto.
Qed.

(** While the entry of [id] stays in the log, no call changes its
    snapshot. *)
Lemma apply_op_keeps_snapshot o id d d' b :
  reachable d -> apply_op o d = Ok d' ->
  PessimisticBackup.get id d = Some b ->
  PessimisticBackup.has id d' = true ->
  exists b', PessimisticBackup.get id d' = Some b' /\ row b' = row b.
Proof.
  intros Hr Hop Hget Hhas.
  destruct (reachable_invariant _ Hr) as [Hone _].
  unfold PessimisticBackup.get, PessimisticBackup.has in *.
  destruct o as [r|r]; simpl in Hop.
  - apply backup_inv in Hop as (k & _ & [[Hnone ->]|(b0 & Hb0 & ->)]);
      unfold PessimisticBackup.get in *.
    + destruct (prim_eq_dec id k) as [->|Hne]; [congruence|].
      exists b. now rewrite get_set_other.
    + destruct (prim_eq_dec id k) as [->|Hne].
      * rewrite get_set_same. eexists; split; [reflexivity|]. simpl.
        congruence.
      * exists b. now rewrite get_set_other.
  - destruct (PessimisticBackup.release r d) as [[s d'']|e] eqn:Hrel;
      simpl in Hop; [|discriminate].
    injection Hop as ->.
    apply release_inv in Hrel as (k & b0 & _ & Hb0 & _ & ->);
      unfold PessimisticBackup.get in *.
    destruct (prim_eq_dec id k) as [->|Hne].
    + destruct (subscribers b0 - 1 =? 0).
      * apply has_true_get in Hhas as [v Hv].
        rewrite get_delete_same in Hv by assumption. discriminate.
      * rewrite get_set_same. eexists; split; [reflexivity|]. simpl.
        congruence.
    + exists b. destruct (subscribers b0 - 1 =? 0).
      * now rewrite get_delete_other.
      * now rewrite get_set_other.
Qed.

Lemma run_keeping_snapshot id ops : forall d d' b,
  reachable d -> PessimisticBackup.get id d = Some b ->
  run_keeping id ops d = Some d' ->
  reachable d' /\
  exists b', PessimisticBackup.get id d' = Some b' /\ row b' = row b.
Proof.
  induction ops as [|o ops IH]; simpl; intros d d' b Hr Hget Hrun.
  - injection Hrun as <-. eauto.
  - destruct (apply_op o d) as [d1|e] eqn:Hop; [|discriminate].
    destruct (PessimisticBackup.has id d1) eqn:Hhas; [|discriminate].
    destruct (apply_op_keeps_snapshot _ _ _ _ _ Hr Hop Hget Hhas)
      as (b1 & Hb1 & Hrow).
    destruct (IH d1 d' b1 (apply_op_reachable _ _ _ Hr Hop) Hb1 Hrun)
      as (Hr' & b' & Hb' & Hrow').
    split; [assumption|]. exists b'. split; [assumption | congruence].
Qed.

(** C5. [release] on an identity that has no entry in the backup log
    throws (the error "Row not found in backup"); the log is left as it
    was, and the callers do not catch it: [_releasePessimisticRowBackup]
    throws it, and so do the settling halves of [update] and [delete]
    wherever they release, with the table unchanged. *)
Theorem release_without_entry_throws (r : jsval) (id : prim) :
  get_id r = Ok id ->
  (forall d, PessimisticBackup.has id d = false ->
     PessimisticBackup.release r d = Throw RowNotFoundInBackup)
  /\ (forall t, PessimisticBackup.has id (pessimisticBackup t) = false ->
        _releasePessimisticRowBackup r t = Throw RowNotFoundInBackup)
  /\ (forall t now http,
        PessimisticBackup.has id (pessimisticBackup t) = false ->
        optimisticUpdates t = true -> succeeded http = true ->
        update_settle now r http t = Thrown RowNotFoundInBackup t)
  /\ (forall t http,
        PessimisticBackup.has id (pessimisticBackup t) = false ->
        optimisticUpdates t = false \/ succeeded http = true ->
        delete_settle r http t = Thrown RowNotFoundInBackup t).
Proof.
  intros Hid.
  assert (Hrel : forall t,
             PessimisticBackup.has id (pessimisticBackup t) = false ->
             _releasePessimisticRowBackup r t = Throw RowNotFoundInBackup).
  { intros t Hhas. unfold _releasePessimisticRowBackup.
    now rewrite (release_absent _ _ _ Hid Hhas). }
  repeat split.
  - intros d Hhas. now apply release_absent with id.
  - exact Hrel.
  - intros t now http Hhas Hopt Hok.
    unfold update_settle, bind, call. rewrite Hopt, Hok. simpl.
    now rewrite (Hrel t Hhas).
  - intros t http Hhas Hmode.
    unfold delete_settle, bind, call.
    destruct (optimisticUpdates t) eqn:Hopt.
    + destruct Hmode as [Hf|Hok]; [discriminate|]. rewrite Hok.
      now rewrite (Hrel t Hhas).
    + now rewrite (Hrel t Hhas).
Qed.

Lemma release_without_entry_throws_witness :
  PessimisticBackup.release (score_row 0) PessimisticBackup.new
  = Throw RowNotFoundInBackup
  /\ update_settle (mkDate (Some 0)) (score_row 0) 200 (scores true)
     = Thrown RowNotFoundInBackup (scores true)
  /\ delete_settle (score_row 0) 500 (scores false)
     = Thrown RowNotFoundInBackup (scores false).
Proof.
  pose proof (release_without_entry_throws (score_row 0) (PStr "1") eq_refl)
    as (H1 & _ & H3 & H4).
  split; [|split].
  - apply H1. reflexivity.
  - apply H3; reflexivity.
  - apply H4; [reflexivity | left; reflexivity].
Defined.

(** C6. In every state of the backup log that [backup] and [release]
    reach from the empty log there is at most one entry per identity and
    every refcount is at least 1.  [backup] on an absent identity creates
    the entry with a deep copy of the row and refcount 1; on a present one
    it increments the refcount.  [release] decrements the refcount,
    removes the entry exactly when the refcount reaches zero, and returns
    the stored snapshot in both cases.  No call touches the entry of
    another identity. *)
Theorem backup_log_refcounting :
  (forall d, reachable d -> one_entry_per_identity d /\ refcounts_positive d)
  /\ (forall r id d,
        get_id r = Ok id -> PessimisticBackup.get id d = None ->
        exists d',
          PessimisticBackup.backup r d = Ok d'
          /\ PessimisticBackup.get id d'
             = Some (mkBackupRow (structuredClone r) 1)
          /\ forall id', id' <> id ->
               PessimisticBackup.get id' d' = PessimisticBackup.get id' d)
  /\ (forall r id d b,
        get_id r = Ok id -> PessimisticBackup.get id d = Some b ->
        exists d',
          PessimisticBackup.backup r d = Ok d'
          /\ PessimisticBackup.get id d'
             = Some (mkBackupRow (row b) (subscribers b + 1))
          /\ forall id', id' <> id ->
               PessimisticBackup.get id' d' = PessimisticBackup.get id' d)
  /\ (forall r id d b,
        reachable d ->
        get_id r = Ok id -> PessimisticBackup.get id d = Some b ->
        exists d',
          PessimisticBackup.release r d = Ok (row b, d')
          /\ (PessimisticBackup.get id d' = None <-> subscribers b - 1 = 0)
          /\ (subscribers b - 1 <> 0 ->
              PessimisticBackup.get id d'
              = Some (mkBackupRow (row b) (subscribers b - 1)))
          /\ forall id', id' <> id ->
               PessimisticBackup.get id' d' = PessimisticBackup.get id' d).
Proof.
  split; [exact reachable_invariant|]. split; [|split].
  - intros r id d Hid Hget. eexists.
    split; [exact (backup_absent _ _ _ Hid Hget)|].
    unfold PessimisticBackup.get. split.
    + apply get_set_same.
    + intros id' Hne. now apply get_set_other.
  - intros r id d b Hid Hget. eexists.
    split; [exact (backup_present _ _ _ _ Hid Hget)|].
    unfold PessimisticBackup.get. split.
    + apply get_set_same.
    + intros id' Hne. now apply get_set_other.
  - intros r id d b Hr Hid Hget. eexists.
    split; [exact (release_present _ _ _ _ Hid Hget)|].
    destruct (reachable_invariant _ Hr) as [Hone _].
    unfold PessimisticBackup.get.
    destruct (subscribers b - 1 =? 0) eqn:Hz.
    + apply Z.eqb_eq in Hz. repeat split.
      * intros _. exact Hz.
      * intros _. now apply get_delete_same.
      * intros Hnz. contradiction.
      * intros id' Hne. now apply get_delete_other.
    + apply Z.eqb_neq in Hz. rewrite get_set_same. repeat split.
      * discriminate.
      * intros Habs. contradiction.
      * intros id' Hne. now apply get_set_other.
Qed.

Lemma backup_log_refcounting_witness :
  (* after backup, backup, release of row "1" *)
  (one_entry_per_identity
     [(PStr "1", mkBackupRow (VClone (score_data 0) "1") 1)]
   /\ refcounts_positive
        [(PStr "1", mkBackupRow (VClone (score_data 0) "1") 1)])
  /\ (exists d',
        PessimisticBackup.backup (score_row 0) PessimisticBackup.new = Ok d'
        /\ PessimisticBackup.get (PStr "1") d'
           = Some (mkBackupRow (VClone (score_data 0) "1") 1)
        /\ forall id', id' <> PStr "1" ->
             PessimisticBackup.get id' d'
             = PessimisticBackup.get id' PessimisticBackup.new)
  /\ (exists d',
        PessimisticBackup.release (score_row 5)
          [(PStr "1", mkBackupRow (VClone (score_data 0) "1") 1)]
        = Ok (VClone (score_data 0) "1", d')
        /\ PessimisticBackup.get (PStr "1") d' = None).
Proof.
  destruct backup_log_refcounting as (Hinv & Habsent & Hpresent & Hrelease).
  assert (Hreach : reachable
            [(PStr "1", mkBackupRow (VClone (score_data 0) "1") 1)]).
  { eapply reach_release with (r := score_row 7).
    - eapply reach_backup with (r := score_row 9).
      + eapply reach_backup with (r := score_row 0).
        * apply reach_new.
        * reflexivity.
      + reflexivity.
    - reflexivity. }
  split; [exact (Hinv _ Hreach)|]. split.
  - exact (Habsent (score_row 0) (PStr "1") PessimisticBackup.new
                   eq_refl eq_refl).
  - destruct (Hrelease (score_row 5) (PStr "1") _ _ Hreach eq_refl eq_refl)
      as (d' & Hrel & Hgone & _).
    exists d'. split; [exact Hrel|]. apply Hgone. reflexivity.
Defined.

(** C10. [backup] for an identity that already has an entry only
    increments the refcount: the stored snapshot stays and the row of the
    nested call is discarded (two rows of that identity give the same
    log).  So from the first [backup] of an identity on, for as long as
    its entry stays in the log, every [release] for that identity returns
    the snapshot captured by that first call. *)
Theorem nested_backup_keeps_first_snapshot :
  (forall r' id d b,
     get_id r' = Ok id -> PessimisticBackup.get id d = Some b ->
     PessimisticBackup.backup r' d
     = Ok (JsMap.set id (mkBackupRow (row b) (subscribers b + 1)) d))
  /\ (forall r1 r2 id d,
        get_id r1 = Ok id -> get_id r2 = Ok id ->
        PessimisticBackup.has id d = true ->
        PessimisticBackup.backup r1 d = PessimisticBackup.backup r2 d)
  /\ (forall r0 id d0 d1 ops d r,
        reachable d0 ->
        get_id r0 = Ok id -> PessimisticBackup.has id d0 = false ->
        PessimisticBackup.backup r0 d0 = Ok d1 ->
        run_keeping id ops d1 = Some d ->
        get_id r = Ok id ->
        exists d',
          PessimisticBackup.release r d = Ok (structuredClone r0, d')).
Proof.
  split; [|split].
  - intros r' id d b Hid Hget. exact (backup_present _ _ _ _ Hid Hget).
  - intros r1 r2 id d H1 H2 Hhas.
    apply has_true_get in Hhas as [b Hget].
    rewrite (backup_present _ _ _ _ H1 Hget).
    now rewrite (backup_present _ _ _ _ H2 Hget).
  - intros r0 id d0 d1 ops d r Hr0 Hid0 Hhas Hb Hrun Hid.
    apply has_false_get in Hhas.
    assert (Hr1 : reachable d1) by (eapply reach_backup; eauto).
    rewrite (backup_absent _ _ _ Hid0 Hhas) in Hb. injection Hb as <-.
    assert (Hget1 : PessimisticBackup.get id
              (JsMap.set id (mkBackupRow (structuredClone r0) 1) d0)
            = Some (mkBackupRow (structuredClone r0) 1))
      by apply get_set_same.
    destruct (run_keeping_snapshot _ _ _ _ _ Hr1 Hget1 Hrun)
      as (_ & b' & Hget' & Hrow).
    eexists. rewrite (release_present _ _ _ _ Hid Hget'). simpl in Hrow.
    rewrite Hrow. reflexivity.
Qed.

Lemma nested_backup_keeps_first_snapshot_witness :
  PessimisticBackup.backup (score_row 2)
    [(PStr "1", mkBackupRow (VClone (score_data 1) "1") 1)]
  = Ok [(PStr "1", mkBackupRow (VClone (score_data 1) "1") 2)]
  /\ exists d',
       PessimisticBackup.release (score_row 3)
         [(PStr "1", mkBackupRow (VClone (score_data 1) "1") 2)]
       = Ok (VClone (score_data 1) "1", d').
Proof.
  destruct nested_backup_keeps_first_snapshot as (Hnested & _ & Hfirst).
  split.
  - exact (Hnested (score_row 2) (PStr "1")
             [(PStr "1", mkBackupRow (VClone (score_data 1) "1") 1)]
             (mkBackupRow (VClone (score_data 1) "1") 1) eq_refl eq_refl).
  - exact (Hfirst (score_row 1) (PStr "1") PessimisticBackup.new
             [(PStr "1", mkBackupRow (VClone (score_data 1) "1") 1)]
             [Backup (score_row 2); Backup (score_row 4);
              Release (score_row 2)]
             [(PStr "1", mkBackupRow (VClone (score_data 1) "1") 2)]
             (score_row 3)
             reach_new eq_refl eq_refl eq_refl eq_refl eq_refl).
Defined.

(** ** Conditions *)

Section ConditionFacts.
Context {rel : Relational}.

Lemma checkCondition_unrecognized this c :
  ~ In (type c) recognized_operators -> checkCondition this c = Ok false.
Proof.
  intros Hnot. unfold checkCondition.
  repeat match goal with
  | |- context [String.eqb (type c) ?op] =>
      destruct (String.eqb_spec (type c) op) as [Heq|_];
      [exfalso; apply Hnot; rewrite Heq; simpl; tauto|]
  end.
  reflexivity.
Qed.

Lemma checkConditions_cons this c rest :
  checkCondition this c = Ok true ->
  checkConditions this (c :: rest) = checkConditions this rest.
Proof. intros H. simpl. now rewrite H. Qed.

Lemma checkConditions_true this cs :
  checkConditions this cs = Ok true
  <-> Forall (fun c => checkCondition this c = Ok true) cs.
Proof.
  induction cs as [|c cs IH]; simpl.
  - split; [constructor | reflexivity].
  - destruct (checkCondition this c) as [[|]|e] eqn:Hc; simpl.
    + rewrite IH. split.
      * intros H. now constructor.
      * intros H. now inversion H.
    + split; [discriminate|]. intros H. inversion H. congruence.
    + split; [discriminate|]. intros H. inversion H. congruence.
Qed.

Lemma checkConditions_first_failure this passed c rest :
  Forall (fun c => checkCondition this c = Ok true) passed ->
  checkCondition this c = Ok false ->
  checkConditions this (passed ++ c :: rest)%list = Ok false.
Proof.
  intros Hpassed Hc. induction Hpassed as [|c0 passed H0 _ IH].
  - simpl. now rewrite Hc.
  - rewrite <- app_comm_cons. now rewrite checkConditions_cons.
Qed.
End ConditionFacts.

(** C8. [checkConditions] returns true if and only if every condition of
    the set holds for the row.  It goes through the conditions in order
    and answers false at the first one that fails, whatever follows it
    (the later conditions are not evaluated: they might even throw).  The
    empty set is true for every row, and a single condition whose operator
    is not one of the six evaluates to false. *)
Theorem checkConditions_all_hold {rel : Relational} :
  (forall this cs,
     checkConditions this cs = Ok true
     <-> Forall (fun c => checkCondition this c = Ok true) cs)
  /\ (forall this passed c rest,
        Forall (fun c => checkCondition this c = Ok true) passed ->
        checkCondition this c = Ok false ->
        checkConditions this (passed ++ c :: rest)%list = Ok false)
  /\ (forall this, checkConditions this [] = Ok true)
  /\ (forall this c,
        ~ In (type c) recognized_operators ->
        checkCondition this c = Ok false
        /\ checkConditions this [c] = Ok false).
Proof.
  split; [exact checkConditions_true|].
  split; [exact checkConditions_first_failure|].
  split; [reflexivity|].
  intros this c Hnot.
  pose proof (checkCondition_unrecognized this c Hnot) as Hc.
  split; [exact Hc|]. simpl. now rewrite Hc.
Qed.

Lemma checkConditions_all_hold_witness :
  (* score 3 is below 5 and the id is "1" *)
  checkConditions (score_row 3)
    [mkCondition "lt" "score" (PNum 5); mkCondition "eq" "id" (PStr "1")]
  = Ok true
  (* the second condition fails and decides *)
  /\ checkConditions (score_row 3)
       ([mkCondition "lt" "score" (PNum 5)]
        ++ mkCondition "gte" "score" (PNum 4)
        :: [mkCondition "eq" "id" (PStr "1")])%list
     = Ok false
  /\ checkConditions (score_row 3) [mkCondition "like" "score" (PNum 3)]
     = Ok false.
Proof.
  destruct (@checkConditions_all_hold integer_cells)
    as (Hiff & Hfirst & _ & Hunknown).
  split; [|split].
  - apply Hiff. repeat constructor.
  - apply Hfirst; [repeat constructor | reflexivity].
  - apply Hunknown. simpl. intros H.
    repeat (destruct H as [H|H]; [discriminate|]). exact H.
Defined.

(** ** Push events *)

Lemma in_flight_is_update_begin :
  update_begin (score_row 1) (scores true) = Returned tt in_flight.
Proof. reflexivity. Qed.

Lemma parse_inv (payload : Payload.t) t tableRow event timestamp :
  __parseSubscriptionPayload payload t = Ok (tableRow, event, timestamp) ->
  event = Payload.eventType payload
  /\ timestamp = mkDate (Payload.commit_timestamp payload)
  /\ exists data id, tableRow = VTableRow data id.
Proof.
  unfold __parseSubscriptionPayload, new_TableRow.
  destruct (generateRowID _ _) as [id|e]; simpl; [|discriminate].
  intros [= <- <- <-]. eauto.
Qed.

Lemma _deleteInternal_TableRow data id t :
  _deleteInternal (VTableRow data id) t
  = Ok (with_store t (TableStore.store_remove (PStr id) (__store t))).
Proof. reflexivity. Qed.

(** C9. A push event whose reconstructed row fails the active
    ConditionSet has that row's identity deleted from the cache, whatever
    the kind of the event; nothing else of the table changes, and the
    identity is absent from the cache afterwards. *)
Theorem irrelevant_push_event_evicts {rel : Relational}
    (payload : Payload.t) (t : Table) (data : jsval) (id event : string)
    (timestamp : Date) :
  __parseSubscriptionPayload payload t
  = Ok (VTableRow data id, event, timestamp) ->
  checkConditions (VTableRow data id) (conditions t) = Ok false ->
  on_postgres_changes payload t
  = Ok (with_store t (TableStore.store_remove (PStr id) (__store t)))
  /\ (one_entry_per_identity (__store t) ->
      TableStore.store_get (PStr id)
        (TableStore.store_remove (PStr id) (__store t)) = None).
Proof.
  intros Hparse Hcheck. split.
  - unfold on_postgres_changes. rewrite Hparse. simpl. rewrite Hcheck.
    reflexivity.
  - intros Hone. now apply get_delete_same.
Qed.

Lemma irrelevant_push_event_evicts_witness :
  on_postgres_changes (pushed "UPDATE" 9)
    (addCondition below_five (scores false))
  = Ok (addCondition below_five
          (with_store (scores false) TableStore.new))
  /\ on_postgres_changes (pushed "INSERT" 9)
       (addCondition below_five (scores false))
     = Ok (addCondition below_five
             (with_store (scores false) TableStore.new)).
Proof.
  split.
  - apply (@irrelevant_push_event_evicts integer_cells (pushed "UPDATE" 9)
             (addCondition below_five (scores false))
             (score_data 9) "1" "UPDATE" (mkDate (Some 1700000000000)));
      reflexivity.
  - apply (@irrelevant_push_event_evicts integer_cells (pushed "INSERT" 9)
             (addCondition below_five (scores false))
             (score_data 9) "1" "INSERT" (mkDate (Some 1700000000000)));
      reflexivity.
Defined.

(** C3, as the code has it.  A push event (each carries a timestamp)
    whose row passes the active ConditionSet, whose kind is INSERT or
    UPDATE, and whose identity is in the backup log when it is delivered,
    leaves the table, and so the cache, exactly as it was. *)
Theorem relevant_upsert_event_suppressed {rel : Relational}
    (payload : Payload.t) (t : Table) (data : jsval) (id event : string)
    (timestamp : Date) :
  __parseSubscriptionPayload payload t
  = Ok (VTableRow data id, event, timestamp) ->
  checkConditions (VTableRow data id) (conditions t) = Ok true ->
  event = "INSERT" \/ event = "UPDATE" ->
  PessimisticBackup.has (PStr id) (pessimisticBackup t) = true ->
  on_postgres_changes payload t = Ok t.
Proof.
  intros Hparse Hcheck Hkind Hhas.
  unfold on_postgres_changes. rewrite Hparse. simpl. rewrite Hcheck. simpl.
  assert (Hk : String.eqb event "INSERT" || String.eqb event "UPDATE" = true)
    by (destruct Hkind as [-> | ->]; reflexivity).
  rewrite Hk. unfold _upsertInternal. simpl. now rewrite Hhas.
Qed.

Lemma relevant_upsert_event_suppressed_witness :
  on_postgres_changes (pushed "UPDATE" 3) (addCondition below_five in_flight)
  = Ok (addCondition below_five in_flight).
Proof.
  apply (@relevant_upsert_event_suppressed integer_cells (pushed "UPDATE" 3)
           (addCondition below_five in_flight)
           (score_data 3) "1" "UPDATE" (mkDate (Some 1700000000000)));
    [reflexivity | reflexivity | right; reflexivity | reflexivity].
Defined.

(** C3, as stated, fails: while row ["1"] is in the backup log, a DELETE
    event about it, and an UPDATE event that takes it out of the
    ConditionSet, both carrying a timestamp, remove it from the cache. *)
Lemma stale_event_changes_cache :
  PessimisticBackup.has (PStr "1") (pessimisticBackup in_flight) = true
  /\ Payload.commit_timestamp (pushed "DELETE" 1) <> None
  /\ (exists t',
        @on_postgres_changes integer_cells (pushed "DELETE" 1) in_flight
        = Ok t'
        /\ __store in_flight = [(PStr "1", score_data 1)]
        /\ __store t' = [])
  /\ (exists t',
        @on_postgres_changes integer_cells (pushed "UPDATE" 9)
          (addCondition below_five in_flight) = Ok t'
        /\ __store (addCondition below_five in_flight)
           = [(PStr "1", score_data 1)]
        /\ __store t' = []).
Proof.
  split; [reflexivity|]. split; [discriminate|]. split.
  - eexists. split; [reflexivity|]. split; reflexivity.
  - eexists. split; [reflexivity|]. split; reflexivity.
Qed.

(** ** Local mutations *)

Lemma update_begin_TableRow t data id d' :
  optimisticUpdates t = true ->
  PessimisticBackup.backup (VTableRow data id) (pessimisticBackup t) = Ok d' ->
  update_begin (VTableRow data id) t
  = Returned tt
      (with_store (with_backup t d')
         (TableStore.store_upsert (PStr id) data (__store t))).
Proof.
  intros Hopt Hb. unfold update_begin, bind, step. rewrite Hopt.
  unfold _createPessimisticRowBackup. rewrite Hb. reflexivity.
Qed.

(** Restoring from the [BackupRow] that [get] answered. *)
Lemma _upsertInternal_BackupRow t data id n :
  keys_accept_backup_rows (keys t) ->
  _upsertInternal (VBackupRow (VClone data id) n) None t
  = Ok (with_store t (TableStore.store_upsert (PStr id) data (__store t))).
Proof.
  intros Hkeys. unfold _upsertInternal, new_TableRow. simpl.
  destruct (Hkeys (VClone data id) n) as [s ->]. reflexivity.
Qed.

Lemma update_settle_rollback t now r id b data http :
  keys_accept_backup_rows (keys t) ->
  get_id r = Ok (PStr id) ->
  PessimisticBackup.get (PStr id) (pessimisticBackup t) = Some b ->
  row b = VClone data id ->
  optimisticUpdates t && succeeded http = false ->
  update_settle now r http t
  = Returned (mkUpdateResult now (succeeded http))
      (with_store t (TableStore.store_upsert (PStr id) data (__store t))).
Proof.
  intros Hkeys Hid Hget Hrow Hmode.
  unfold update_settle, bind, read, step, ret. rewrite Hmode.
  unfold _getPessimisticRowBackup. rewrite Hid. simpl.
  unfold PessimisticBackup.get_value. rewrite Hget, Hrow.
  now rewrite _upsertInternal_BackupRow.
Qed.

Lemma update_settle_release t now r id b http :
  get_id r = Ok id ->
  PessimisticBackup.get id (pessimisticBackup t) = Some b ->
  optimisticUpdates t = true -> succeeded http = true ->
  update_settle now r http t
  = Returned (mkUpdateResult now true)
      (with_backup t
         (if subscribers b - 1 =? 0
          then JsMap.delete id (pessimisticBackup t)
          else JsMap.set id (mkBackupRow (row b) (subscribers b - 1))
                 (pessimisticBackup t))).
Proof.
  intros Hid Hget Hopt Hok.
  unfold update_settle, bind, call, ret. rewrite Hopt, Hok. simpl.
  unfold _releasePessimisticRowBackup.
  now rewrite (release_present _ _ _ _ Hid Hget).
Qed.

(** Without optimistic mode no backup was taken, [get] answers
    [undefined], and restoring from [undefined] throws: either
    [generateRowID] does, or reading [row.row] in [__convertRow]. *)
Lemma _upsertInternal_undefined t :
  exists e, _upsertInternal undefined None t = Throw e.
Proof.
  unfold _upsertInternal, new_TableRow. simpl.
  destruct (generateRowID (keys t) undefined) as [s|e]; simpl; eauto.
Qed.

Lemma update_nonoptimistic_throws t now r id http :
  optimisticUpdates t = false ->
  get_id r = Ok id ->
  PessimisticBackup.get id (pessimisticBackup t) = None ->
  exists e, update now r http t = Thrown e t.
Proof.
  intros Hopt Hid Hget.
  unfold update, update_begin, update_settle, bind, read, step.
  cbv beta. rewrite !Hopt. cbn [andb]. cbv beta. rewrite ?Hopt. cbn [andb].
  unfold _getPessimisticRowBackup. rewrite Hid. cbn [rbind].
  unfold PessimisticBackup.get_value. rewrite Hget.
  destruct (_upsertInternal_undefined t) as [e ->]. eauto.
Qed.

Lemma delete_nonoptimistic_throws t r id http :
  optimisticUpdates t = false ->
  get_id r = Ok id ->
  PessimisticBackup.has id (pessimisticBackup t) = false ->
  delete r http t = Thrown RowNotFoundInBackup t.
Proof.
  intros Hopt Hid Hhas.
  unfold delete, delete_begin, delete_settle, bind, call.
  cbv beta. rewrite !Hopt. cbv beta. rewrite ?Hopt.
  unfold _releasePessimisticRowBackup.
  now rewrite (release_absent _ _ _ Hid Hhas).
Qed.

(** How two overlapping optimistic [update] calls of [TableRow]s of one
    identity settle, on a table with no backup of that identity pending
    and whose [generateRowID] answers on [BackupRow] objects.  Each call
    calls [backup] once: the first creates the entry, the second only
    raises its refcount to 2, so the log holds one snapshot, the one the
    first call captured.  If at least one of the calls fails, then in
    whichever order they settle the cache entry of the identity ends as
    that snapshot. *)
Theorem overlapping_updates_share_first_snapshot
    (t : Table) (dataA dataB : jsval) (id : string) (now : Date)
    (httpA httpB : Z) :
  optimisticUpdates t = true ->
  PessimisticBackup.has (PStr id) (pessimisticBackup t) = false ->
  keys_accept_backup_rows (keys t) ->
  succeeded httpA && succeeded httpB = false ->
  exists t1 t2 snapshot data,
    update_begin (VTableRow dataA id) t = Returned tt t1
    /\ PessimisticBackup.get (PStr id) (pessimisticBackup t1)
       = Some (mkBackupRow snapshot 1)
    /\ update_begin (VTableRow dataB id) t1 = Returned tt t2
    /\ PessimisticBackup.get (PStr id) (pessimisticBackup t2)
       = Some (mkBackupRow snapshot 2)
    /\ get_prop snapshot "data" = Ok data
    /\ (exists final,
          (update_settle now (VTableRow dataA id) httpA ;;
           update_settle now (VTableRow dataB id) httpB)%method t2
          = Returned (mkUpdateResult now (succeeded httpB)) final
          /\ TableStore.store_get (PStr id) (__store final) = Some data)
    /\ (exists final,
          (update_settle now (VTableRow dataB id) httpB ;;
           update_settle now (VTableRow dataA id) httpA)%method t2
          = Returned (mkUpdateResult now (succeeded httpA)) final
          /\ TableStore.store_get (PStr id) (__store final) = Some data).
Proof.
  intros Hopt Hhas Hkeys Hfail.
  apply has_false_get in Hhas.
  set (rA := VTableRow dataA id). set (rB := VTableRow dataB id).
  set (d1 := JsMap.set (PStr id) (mkBackupRow (structuredClone rA) 1)
               (pessimisticBackup t)).
  set (t1 := with_store (with_backup t d1)
               (TableStore.store_upsert (PStr id) dataA (__store t))).
  assert (Hget1 : PessimisticBackup.get (PStr id) (pessimisticBackup t1)
                  = Some (mkBackupRow (VClone dataA id) 1))
    by apply get_set_same.
  set (d2 := JsMap.set (PStr id) (mkBackupRow (VClone dataA id) 2) d1).
  set (t2 := with_store (with_backup t1 d2)
               (TableStore.store_upsert (PStr id) dataB (__store t1))).
  assert (Hget2 : PessimisticBackup.get (PStr id) (pessimisticBackup t2)
                  = Some (mkBackupRow (VClone dataA id) 2))
    by apply get_set_same.
  exists t1, t2, (VClone dataA id), dataA.
  split; [|split; [exact Hget1|split; [|split; [exact Hget2|split;
    [reflexivity|]]]]].
  - apply update_begin_TableRow; [assumption|].
    exact (backup_absent rA (PStr id) (pessimisticBackup t) eq_refl Hhas).
  - apply update_begin_TableRow; [assumption|].
    exact (backup_present rB (PStr id) (pessimisticBackup t1) _ eq_refl Hget1).
  - (* what one settling call does to a table that holds the snapshot *)
    assert (Hsettle : forall r http u n,
              get_id r = Ok (PStr id) ->
              keys u = keys t -> optimisticUpdates u = true ->
              PessimisticBackup.get (PStr id) (pessimisticBackup u)
              = Some (mkBackupRow (VClone dataA id) n) ->
              n <> 1 \/ succeeded http = false ->
              exists u',
                update_settle now r http u
                = Returned (mkUpdateResult now (succeeded http)) u'
                /\ keys u' = keys t /\ optimisticUpdates u' = true
                /\ (succeeded http = false ->
                    TableStore.store_get (PStr id) (__store u') = Some dataA
                    /\ pessimisticBackup u' = pessimisticBackup u)
                /\ (succeeded http = true ->
                    __store u' = __store u
                    /\ PessimisticBackup.get (PStr id) (pessimisticBackup u')
                       = Some (mkBackupRow (VClone dataA id) (n - 1)))).
    { intros r http u n Hid Hk Ho Hg Hn.
      destruct (succeeded http) eqn:Hs.
      - destruct Hn as [Hn|Hn]; [|discriminate].
        eexists. split.
        + rewrite (update_settle_release u now r (PStr id) _ http Hid Hg Ho Hs).
          reflexivity.
        + simpl. destruct (n - 1 =? 0) eqn:Hz;
            [apply Z.eqb_eq in Hz; lia|].
          repeat split; try assumption; try discriminate.
          apply get_set_same.
      - eexists. split.
        + rewrite (update_settle_rollback u now r id
                     (mkBackupRow (VClone dataA id) n) dataA http);
            [now rewrite Hs | now rewrite Hk | exact Hid | exact Hg
            | reflexivity | now rewrite Ho, Hs].
        + simpl. repeat split; try assumption; try discriminate.
          apply get_set_same. }
    assert (Hboth : forall r r' http http',
              get_id r = Ok (PStr id) -> get_id r' = Ok (PStr id) ->
              succeeded http && succeeded http' = false ->
              exists final,
                (update_settle now r http ;;
                 update_settle now r' http')%method t2
                = Returned (mkUpdateResult now (succeeded http')) final
                /\ TableStore.store_get (PStr id) (__store final)
                   = Some dataA).
    { intros r r' http http' Hid Hid' Hf.
      destruct (Hsettle r http t2 2 Hid eq_refl Hopt Hget2)
        as (u & Hu & Hku & Hou & Hfail1 & Hok1); [left; lia|].
      unfold bind. rewrite Hu.
      destruct (succeeded http) eqn:Hs.
      - simpl in Hf.
        destruct (Hok1 eq_refl) as [Hstore Hg].
        destruct (Hsettle r' http' u 1 Hid' Hku Hou Hg)
          as (u' & Hu' & _ & _ & Hfail2 & _); [now right|].
        exists u'. rewrite Hf in Hu' |- *. split; [exact Hu'|].
        now apply Hfail2.
      - destruct (Hfail1 eq_refl) as [Hstore Hlog].
        assert (Hg : PessimisticBackup.get (PStr id) (pessimisticBackup u)
                     = Some (mkBackupRow (VClone dataA id) 2))
          by (now rewrite Hlog).
        destruct (Hsettle r' http' u 2 Hid' Hku Hou Hg)
          as (u' & Hu' & _ & _ & Hfail2 & Hok2); [left; lia|].
        exists u'. split; [exact Hu'|].
        destruct (succeeded http') eqn:Hs'.
        + destruct (Hok2 eq_refl) as [-> _]. exact Hstore.
        + now apply Hfail2. }
    split.
    + apply Hboth; [reflexivity | reflexivity | assumption].
    + apply Hboth; [reflexivity | reflexivity |].
      now rewrite andb_comm.
Qed.

Lemma id_column_accepts_backup_rows : keys_accept_backup_rows id_column.
Proof. intros r n. eexists. reflexivity. Qed.

Lemma overlapping_updates_share_first_snapshot_witness :
  exists t1 t2 snapshot data,
    update_begin (score_row 1) (scores true) = Returned tt t1
    /\ PessimisticBackup.get (PStr "1") (pessimisticBackup t1)
       = Some (mkBackupRow snapshot 1)
    /\ update_begin (score_row 2) t1 = Returned tt t2
    /\ PessimisticBackup.get (PStr "1") (pessimisticBackup t2)
       = Some (mkBackupRow snapshot 2)
    /\ get_prop snapshot "data" = Ok data
    /\ (exists final,
          (update_settle (mkDate (Some 0)) (score_row 1) 500 ;;
           update_settle (mkDate (Some 0)) (score_row 2) 200)%method t2
          = Returned (mkUpdateResult (mkDate (Some 0)) (succeeded 200)) final
          /\ TableStore.store_get (PStr "1") (__store final) = Some data)
    /\ (exists final,
          (update_settle (mkDate (Some 0)) (score_row 2) 200 ;;
           update_settle (mkDate (Some 0)) (score_row 1) 500)%method t2
          = Returned (mkUpdateResult (mkDate (Some 0)) (succeeded 500)) final
          /\ TableStore.store_get (PStr "1") (__store final) = Some data).
Proof.
  exact (overlapping_updates_share_first_snapshot
           (scores true) (score_data 1) (score_data 2) "1" (mkDate (Some 0))
           500 200 eq_refl eq_refl id_column_accepts_backup_rows eq_refl).
Defined.

(** C1, on the code.  The cache holds score 0 for row ["1"].  [update]
    backs up a copy of the row it is given, not of the row the cache
    holds, so a rollback writes the value of the very mutation that
    failed.  A single failed optimistic [update] to score 1 already
    leaves the cache at score 1.  When an [update] to score 1 and an
    overlapping [update] to score 2 both fail, the cache ends at score 1,
    not at the score 0 it held before the first mutation, and the backup
    entry is still in the log with refcount 2: no [release] was called.
    When the second succeeds and the first then fails, the rollback of
    the first writes score 1 as well, not the score 0 the row had when
    that attempt began. *)
Theorem update_rollback_writes_failed_value :
  TableStore.store_get (PStr "1") (__store (scores true))
  = Some (score_data 0)
  /\ score_data 1 <> score_data 0
  /\ (exists final,
        update (mkDate (Some 0)) (score_row 1) 500 (scores true)
        = Returned (mkUpdateResult (mkDate (Some 0)) false) final
        /\ TableStore.store_get (PStr "1") (__store final)
           = Some (score_data 1))
  /\ (exists final,
        (update_begin (score_row 1) ;; update_begin (score_row 2) ;;
         update_settle (mkDate (Some 0)) (score_row 1) 500 ;;
         update_settle (mkDate (Some 0)) (score_row 2) 500)%method
          (scores true)
        = Returned (mkUpdateResult (mkDate (Some 0)) false) final
        /\ TableStore.store_get (PStr "1") (__store final)
           = Some (score_data 1)
        /\ PessimisticBackup.subscribers (PStr "1") (pessimisticBackup final)
           = Ok 2)
  /\ (exists final,
        (update_begin (score_row 1) ;; update_begin (score_row 2) ;;
         update_settle (mkDate (Some 0)) (score_row 2) 200 ;;
         update_settle (mkDate (Some 0)) (score_row 1) 500)%method
          (scores true)
        = Returned (mkUpdateResult (mkDate (Some 0)) false) final
        /\ TableStore.store_get (PStr "1") (__store final)
           = Some (score_data 1)).
Proof.
  split; [reflexivity|]. split; [discriminate|].
  split; [|split].
  - eexists. split; reflexivity.
  - eexists. split; [reflexivity|]. split; reflexivity.
  - eexists. split; reflexivity.
Qed.

(** C2, on the code.  A failed optimistic [update] of row ["1"] returns
    its result but leaves the table exactly as it was while the call was
    in flight: the backup entry is still in the log with refcount 1, never
    released.  Without optimistic mode, [update] throws after the remote
    call, also when that call succeeded, and returns no result. *)
Theorem update_leaves_backup_or_throws :
  update (mkDate (Some 0)) (score_row 1) 500 (scores true)
  = Returned (mkUpdateResult (mkDate (Some 0)) false) in_flight
  /\ PessimisticBackup.has (PStr "1") (pessimisticBackup in_flight) = true
  /\ update (mkDate (Some 0)) (score_row 1) 200 (scores false)
     = Thrown TypeError (scores false)
  /\ update (mkDate (Some 0)) (score_row 1) 500 (scores false)
     = Thrown TypeError (scores false).
Proof. repeat split. Qed.

(** C4, on the code.  Without optimistic mode, [delete] releases a backup
    that was never taken: it throws "Row not found in backup" instead of
    returning false when the remote call failed (and instead of returning
    true when it succeeded).  With optimistic mode the failed call
    returns false. *)
Theorem delete_without_optimistic_mode_throws :
  delete (score_row 0) 500 (scores false)
  = Thrown RowNotFoundInBackup (scores false)
  /\ delete (score_row 0) 200 (scores false)
     = Thrown RowNotFoundInBackup (scores false)
  /\ exists t', delete (score_row 0) 500 (scores true) = Returned false t'.
Proof.
  split; [reflexivity|]. split; [reflexivity|].
  eexists. reflexivity.
Qed.

(** ** Initial load *)

Lemma same_settings_refl t : same_settings t t.
Proof. destruct t. reflexivity. Qed.

Lemma same_settings_trans t1 t2 t3 :
  same_settings t1 t2 -> same_settings t2 t3 -> same_settings t1 t3.
Proof.
  unfold same_settings. intros H12 H23. rewrite H23 at 1. rewrite H12 at 1.
  reflexivity.
Qed.

Lemma _upsertInternal_settings r timestamp t t' :
  _upsertInternal r timestamp t = Ok t' -> same_settings t t'.
Proof.
  unfold _upsertInternal.
  destruct (if instanceof_TableRow r then Ok r else new_TableRow r (keys t))
    as [tableRow|e]; simpl; [|discriminate].
  destruct (match timestamp with Some _ => _ | None => _ end)
    as [[|]|e]; simpl; [| |discriminate].
  - intros [= <-]. apply same_settings_refl.
  - destruct (TableStore.upsert (keys t) r (__store t)) as [s|e]; simpl;
      [|discriminate].
    intros [= <-]. reflexivity.
Qed.

Lemma ingest_settings rows : forall t,
  match ingest rows t with
  | Returned _ t' => same_settings t t'
  | Thrown _ t' => same_settings t t'
  end.
Proof.
  induction rows as [|r rows IH]; intros t; simpl.
  - apply same_settings_refl.
  - unfold bind, step.
    destruct (_upsertInternal r None t) as [t1|e] eqn:Hup.
    + apply _upsertInternal_settings in Hup. specialize (IH t1).
      destruct (ingest rows t1);
        eapply same_settings_trans; eassumption.
    + apply same_settings_refl.
Qed.

Lemma ingest_app rows1 rows2 t :
  ingest (rows1 ++ rows2)%list t = (ingest rows1 ;; ingest rows2)%method t.
Proof.
  revert t. induction rows1 as [|r rows1 IH]; intros t; simpl.
  - reflexivity.
  - unfold bind, step.
    destruct (_upsertInternal r None t) as [t1|e]; [|reflexivity].
    rewrite IH. reflexivity.
Qed.

Lemma fetchQuery_settings t t' start end_ :
  same_settings t t' -> fetchQuery t' start end_ = fetchQuery t start end_.
Proof. unfold same_settings. intros ->. reflexivity. Qed.

Lemma window_query_settings t t' w :
  same_settings t t' -> window_query t' w = window_query t w.
Proof. intros H. now apply fetchQuery_settings. Qed.

Section InitialLoad.
Variable supabase : Query.t -> Response.t.

(** The loop ends within the fuel [_addInitialRows] gives it. *)
Lemma fetch_loop_total fuel : forall count start t,
  (Z.to_nat (count - start) < fuel)%nat ->
  exists r, fetch_loop fuel supabase count start t = Some r.
Proof.
  induction fuel as [|fuel IH]; intros count start t Hfuel; [lia|].
  simpl. destruct (start <? count) eqn:Hlt; [|eauto].
  apply Z.ltb_lt in Hlt.
  destruct (Response.error _); [eauto|].
  destruct (ingest _ t) as [[] t'|e t']; [|eauto].
  destruct (IH count (start + pageSize) t') as [[effects o] ->];
    [unfold pageSize; lia | eauto].
Qed.

(** A failing page ends the loop: one warning, no further query. *)
Lemma fetch_loop_error fuel count start t :
  start < count ->
  Response.error (supabase (fetchQuery t start (start + pageSize - 1)))
  = true ->
  fetch_loop (S fuel) supabase count start t
  = Some ([Awaited (fetchQuery t start (start + pageSize - 1)); Warned],
          Returned tt t).
Proof.
  intros Hlt Herr. simpl.
  apply Z.ltb_lt in Hlt. now rewrite Hlt, Herr.
Qed.

Lemma fetch_loop_pages pages : forall fuel count start t t',
  (pages < fuel)%nat ->
  count <= start + Z.of_nat pages * pageSize ->
  (0 < Z.of_nat pages -> start + (Z.of_nat pages - 1) * pageSize < count) ->
  (forall w, In w (windows_from start pages) ->
     Response.error (supabase (window_query t w)) = false) ->
  ingest (List.concat (map (rows_of supabase t) (windows_from start pages))) t
  = Returned tt t' ->
  fetch_loop fuel supabase count start t
  = Some (map (fun w => Awaited (window_query t w))
              (windows_from start pages),
          Returned tt t').
Proof.
  unfold pageSize.
  induction pages as [|pages IH];
    intros fuel count start t t' Hfuel Hhi Hlo Herr Hingest;
    (destruct fuel as [|fuel]; [lia|]).
  - simpl in *. destruct (start <? count) eqn:Hlt.
    + apply Z.ltb_lt in Hlt. lia.
    + now injection Hingest as <-.
  - cbn [windows_from map List.concat] in *. cbn [fetch_loop].
    assert (Hlt : (start <? count) = true) by (apply Z.ltb_lt; lia).
    rewrite Hlt.
    pose proof (Herr _ (or_introl eq_refl)) as Herr0.
    unfold window_query in Herr0 at 1. cbn [fst snd] in Herr0.
    rewrite Herr0.
    rewrite ingest_app in Hingest. unfold bind in Hingest.
    unfold rows_of at 1, window_query at 1 in Hingest.
    cbn [fst snd] in Hingest.
    pose proof (ingest_settings
                  (or_empty (Response.data
                     (supabase (fetchQuery t start (start + pageSize - 1)))))
                  t) as Hset.
    unfold pageSize in *.
    destruct (ingest _ t) as [[] t1|e t1]; [|discriminate].
    assert (Hq : forall w, window_query t1 w = window_query t w)
      by (intros w; now apply window_query_settings).
    assert (Hrows : forall ws,
               map (rows_of supabase t1) ws = map (rows_of supabase t) ws).
    { intros ws. apply map_ext. intros w. unfold rows_of. now rewrite Hq. }
    rewrite (IH fuel count (start + 1000) t1 t').
    + f_equal. f_equal. f_equal.
      apply map_ext. intros w. now rewrite Hq.
    + lia.
    + lia.
    + lia.
    + intros w Hin. rewrite Hq. apply Herr. now right.
    + now rewrite Hrows.
Qed.

Lemma page_count_bounds count :
  0 < count ->
  count <= Z.of_nat (page_count count) * pageSize
  /\ (Z.of_nat (page_count count) - 1) * pageSize < count
  /\ (page_count count < S (Z.to_nat count))%nat.
Proof.
  intros Hpos. unfold page_count, pageSize.
  pose proof (Z.div_mod (count + 1000 - 1) 1000 ltac:(lia)) as Hdiv.
  pose proof (Z.mod_pos_bound (count + 1000 - 1) 1000 ltac:(lia)) as Hmod.
  set (q := (count + 1000 - 1) / 1000) in *.
  assert (0 <= q) by lia.
  rewrite Z2Nat.id by assumption.
  repeat split; lia.
Qed.
End InitialLoad.

(** C7, as the code has it.  The initial load first awaits a count query
    scoped by the table-level prefilter only (the ConditionSet translation
    is applied to the page queries, not to the count).  On an error of
    the count it warns and stops.  Otherwise, for a count above zero, it
    awaits the windows [[offset, offset + 999]], offset going up by 1000
    until it reaches the count, each scoped by the prefilter and the
    ConditionSet, and ingests every row of every page once, in order; for
    a count of 2500 these are the three windows [[0,999]], [[1000,1999]]
    and [[2000,2999]].  A page that fails is warned about and ends the
    load: no retry, no further page.  The run always ends. *)
Theorem initial_load_pages (supabase : Query.t -> Response.t) (t : Table) :
  (Query.translated (countQuery t) = None
   /\ Query.eq (countQuery t) = prefilter_eq t
   /\ Query.range (countQuery t) = None)
  /\ (forall w,
        Query.translated (window_query t w) = Some (conditions t)
        /\ Query.eq (window_query t w) = prefilter_eq t
        /\ Query.range (window_query t w) = Some w)
  /\ (exists effects o,
        _addInitialRows supabase t
        = Some (Awaited (countQuery t) :: effects, o))
  /\ (Response.error (supabase (countQuery t)) = true ->
      _addInitialRows supabase t
      = Some ([Awaited (countQuery t); Warned], Returned tt t))
  /\ (forall count t',
        Response.error (supabase (countQuery t)) = false ->
        Response.count (supabase (countQuery t)) = Some count ->
        0 < count ->
        (forall w, In w (windows (page_count count)) ->
           Response.error (supabase (window_query t w)) = false) ->
        ingest (List.concat (map (rows_of supabase t)
                               (windows (page_count count)))) t
        = Returned tt t' ->
        _addInitialRows supabase t
        = Some (Awaited (countQuery t)
                :: map (fun w => Awaited (window_query t w))
                       (windows (page_count count)),
                Returned tt t'))
  /\ windows (page_count 2500) = [(0, 999); (1000, 1999); (2000, 2999)]
  /\ (forall fuel count start u,
        start < count ->
        Response.error (supabase (fetchQuery u start (start + pageSize - 1)))
        = true ->
        fetch_loop (S fuel) supabase count start u
        = Some ([Awaited (fetchQuery u start (start + pageSize - 1)); Warned],
                Returned tt u)).
Proof.
  split; [repeat split|]. split; [intros [s e]; repeat split|].
  split; [|split; [|split; [|split; [reflexivity|]]]].
  - unfold _addInitialRows. cbv zeta.
    destruct (Response.error _ || no_count _); [eauto|].
    destruct (Response.count _) as [count|]; [|eauto].
    destruct (fetch_loop_total supabase (S (Z.to_nat count)) count 0 t)
      as [[effects o] ->]; [lia | eauto].
  - intros Herr. unfold _addInitialRows. cbv zeta. now rewrite Herr.
  - intros count t' Herr Hcount Hpos Hpages Hingest.
    unfold _addInitialRows. cbv zeta. rewrite Herr, Hcount.
    cbn [orb no_count].
    destruct (count =? 0) eqn:Hz; [apply Z.eqb_eq in Hz; lia|].
    destruct (page_count_bounds count Hpos) as (Hhi & Hlo & Hfuel).
    unfold windows in *.
    rewrite (fetch_loop_pages supabase (page_count count)
               (S (Z.to_nat count)) count 0 t t');
      [reflexivity | exact Hfuel | lia | lia | exact Hpages | exact Hingest].
  - intros fuel count start u. apply fetch_loop_error.
Qed.

Lemma initial_load_pages_witness :
  _addInitialRows backend_2500 (addCondition below_five (scores false))
  = Some (Awaited (countQuery (addCondition below_five (scores false)))
          :: map (fun w =>
                    Awaited (window_query
                               (addCondition below_five (scores false)) w))
                 [(0, 999); (1000, 1999); (2000, 2999)],
          Returned tt
            (with_store (addCondition below_five (scores false))
               [(PStr "1", score_data 0);
                (PStr "a", VObj [("id", PStr "a"); ("score", PNum 1)]);
                (PStr "b", VObj [("id", PStr "b"); ("score", PNum 2)]);
                (PStr "c", VObj [("id", PStr "c"); ("score", PNum 3)])])).
Proof.
  destruct (initial_load_pages backend_2500
              (addCondition below_five (scores false)))
    as (_ & _ & _ & _ & Hload & _ & _).
  apply (Hload 2500); reflexivity.
Defined.

(** C7, as stated, fails.  On a table filtered by [score < 5], with 2500
    rows counted, the count query carries no ConditionSet translation, and
    the third window awaited is [[2000,2999]], not [[2000,2499]]. *)
Lemma initial_load_last_window_not_clamped :
  exists effects o,
    _addInitialRows backend_2500 (addCondition below_five (scores false))
    = Some (effects, o)
    /\ conditions (addCondition below_five (scores false)) = [below_five]
    /\ hd_error effects
       = Some (Awaited (Query.mk "scores" true None None None))
    /\ windows_awaited effects = [(0, 999); (1000, 1999); (2000, 2999)]
    /\ windows_awaited effects <> [(0, 999); (1000, 1999); (2000, 2499)].
Proof.
  do 2 eexists. split; [vm_compute; reflexivity|].
  split; [reflexivity|]. split; [reflexivity|].
  split; [reflexivity | discriminate].
Qed.

(* ================================================================== *)
(** * Further properties of the three files *)

(** ** The [Map], continued *)

Section JsMapMoreFacts.
Context {V : Type}.
Implicit Types (m : JsMap.t V) (k : prim) (v : V).

Lemma set_get_same m k v : JsMap.get k m = Some v -> JsMap.set k v m = m.
Proof.
  induction m as [|[k' v'] m IH]; simpl; [discriminate|].
  destruct (prim_eq_dec k k') as [->|Hne].
  - intros [= ->]. reflexivity.
  - intros H. now rewrite IH.
Qed.

Lemma set_set m k v v' : JsMap.set k v' (JsMap.set k v m) = JsMap.set k v' m.
Proof.
  induction m as [|[k0 v0] m IH]; simpl.
  - destruct (prim_eq_dec k k); congruence.
  - destruct (prim_eq_dec k k0) as [->|Hne]; simpl.
    + destruct (prim_eq_dec k0 k0); congruence.
    + destruct (prim_eq_dec k k0); [contradiction|]. now rewrite IH.
Qed.

Lemma delete_set_absent m k v :
  JsMap.get k m = None -> JsMap.delete k (JsMap.set k v m) = m.
Proof.
  induction m as [|[k0 v0] m IH]; simpl.
  - destruct (prim_eq_dec k k); congruence.
  - destruct (prim_eq_dec k k0) as [->|Hne]; [discriminate|]. simpl.
    destruct (prim_eq_dec k k0); [contradiction|].
    intros H. now rewrite IH.
Qed.

Lemma delete_absent m k : JsMap.get k m = None -> JsMap.delete k m = m.
Proof.
  induction m as [|[k0 v0] m IH]; simpl; [reflexivity|].
  destruct (prim_eq_dec k k0); [discriminate|].
  intros H. now rewrite IH.
Qed.
End JsMapMoreFacts.

(** ** The backup log, continued *)

Lemma BackupRow_eta b : mkBackupRow (row b) (subscribers b) = b.
Proof. now destruct b. Qed.

(** A [backup] and a [release] of an identity that had no entry. *)
Lemma backup_release_absent r r' id d :
  get_id r = Ok id -> get_id r' = Ok id ->
  PessimisticBackup.get id d = None ->
  PessimisticBackup.release r'
    (JsMap.set id (mkBackupRow (structuredClone r) 1) d)
  = Ok (structuredClone r, d).
Proof.
  intros Hid Hid' Hget.
  rewrite (release_present r' id _
             (mkBackupRow (structuredClone r) 1) Hid'
             (get_set_same _ _ _)).
  simpl. now rewrite delete_set_absent.
Qed.

(** A [backup] and a [release] of an identity that had an entry. *)
Lemma backup_release_present r' id d b :
  1 <= subscribers b -> get_id r' = Ok id ->
  PessimisticBackup.get id d = Some b ->
  PessimisticBackup.release r'
    (JsMap.set id (mkBackupRow (row b) (subscribers b + 1)) d)
  = Ok (row b, d).
Proof.
  intros Hb Hid' Hget.
  rewrite (release_present r' id _
             (mkBackupRow (row b) (subscribers b + 1)) Hid'
             (get_set_same _ _ _)).
  simpl. destruct (subscribers b + 1 - 1 =? 0) eqn:Hz;
    [apply Z.eqb_eq in Hz; lia|].
  rewrite set_set.
  replace (subscribers b + 1 - 1) with (subscribers b) by lia.
  rewrite BackupRow_eta. now rewrite set_get_same.
Qed.

(** X1. On a log whose refcounts are positive, a [backup] followed by a
    [release] of the same identity leaves the log exactly as it was,
    whether or not the identity had an entry; the release returns the
    snapshot that was there, or else the copy just taken. *)
Theorem backup_then_release_restores_log (r r' : jsval) (id : prim)
    (d : PessimisticBackup.t) :
  refcounts_positive d ->
  get_id r = Ok id -> get_id r' = Ok id ->
  exists d1,
    PessimisticBackup.backup r d = Ok d1
    /\ PessimisticBackup.release r' d1
       = Ok (match PessimisticBackup.get id d with
             | Some b => row b
             | None => structuredClone r
             end, d).
Proof.
  intros Hpos Hid Hid'.
  destruct (PessimisticBackup.get id d) as [b|] eqn:Hget.
  - eexists. split; [exact (backup_present r id d b Hid Hget)|].
    apply backup_release_present; [|assumption|assumption].
    exact (refcounts_get d id b Hpos Hget).
  - eexists. split; [exact (backup_absent r id d Hid Hget)|].
    now apply backup_release_absent.
Qed.

Lemma backup_then_release_restores_log_witness :
  exists d1,
    PessimisticBackup.backup (score_row 2)
      [(PStr "1", mkBackupRow (VClone (score_data 1) "1") 1)] = Ok d1
    /\ PessimisticBackup.release (score_row 3) d1
       = Ok (VClone (score_data 1) "1",
             [(PStr "1", mkBackupRow (VClone (score_data 1) "1") 1)]).
Proof.
  apply (backup_then_release_restores_log (score_row 2) (score_row 3)
           (PStr "1"));
    [repeat constructor; simpl; lia | reflexivity | reflexivity].
Defined.

Lemma backup_all_present rows : forall id d b,
  PessimisticBackup.get id d = Some b ->
  Forall (fun r => get_id r = Ok id) rows ->
  backup_all rows d
  = Ok (JsMap.set id
          (mkBackupRow (row b) (subscribers b + Z.of_nat (List.length rows))) d).
Proof.
  induction rows as [|r rows IH]; intros id d b Hget Hids; simpl.
  - rewrite Z.add_0_r, BackupRow_eta. now rewrite set_get_same.
  - inversion Hids as [|? ? Hid Hids']; subst.
    rewrite (backup_present r id d b Hid Hget). simpl.
    rewrite (IH id _ (mkBackupRow (row b) (subscribers b + 1))
               (get_set_same _ _ _) Hids').
    rewrite set_set. simpl. do 3 f_equal. lia.
Qed.

Lemma release_all_counting rows : forall id d snapshot,
  PessimisticBackup.get id d = None ->
  rows <> [] ->
  Forall (fun r => get_id r = Ok id) rows ->
  release_all rows
    (JsMap.set id (mkBackupRow snapshot (Z.of_nat (List.length rows))) d)
  = Ok (repeat snapshot (List.length rows), d).
Proof.
  induction rows as [|r rows IH]; intros id d snapshot Hget Hne Hids;
    [contradiction|].
  inversion Hids as [|? ? Hid Hids']; subst.
  cbn [release_all].
  rewrite (release_present r id _
             (mkBackupRow snapshot (Z.of_nat (List.length (r :: rows)))) Hid
             (get_set_same _ _ _)).
  cbn [rbind row subscribers List.length repeat].
  destruct rows as [|r' rows].
  - simpl. now rewrite delete_set_absent.
  - destruct (Z.of_nat (S (List.length (r' :: rows))) - 1 =? 0) eqn:Hz;
      [apply Z.eqb_eq in Hz; simpl List.length in Hz; lia|].
    rewrite set_set.
    replace (Z.of_nat (S (List.length (r' :: rows))) - 1)
      with (Z.of_nat (List.length (r' :: rows))) by lia.
    rewrite (IH id d snapshot Hget ltac:(discriminate) Hids').
    reflexivity.
Qed.

(** X2. Refcounting is balanced.  When rows of one identity, absent from
    the log, are backed up one after the other, the refcount is their
    number; as many releases of that identity each return the snapshot of
    the first row and bring the log back to what it was, and a further
    release throws. *)
Theorem balanced_backups_and_releases (first : jsval) (more rows' : list jsval)
    (id : prim) (d : PessimisticBackup.t) :
  PessimisticBackup.get id d = None ->
  Forall (fun r => get_id r = Ok id) (first :: more) ->
  Forall (fun r => get_id r = Ok id) rows' ->
  List.length rows' = List.length (first :: more) ->
  exists d',
    backup_all (first :: more) d = Ok d'
    /\ PessimisticBackup.subscribers id d'
       = Ok (Z.of_nat (List.length (first :: more)))
    /\ release_all rows' d'
       = Ok (repeat (structuredClone first) (List.length rows'), d)
    /\ PessimisticBackup.release first d = Throw RowNotFoundInBackup.
Proof.
  intros Hget Hids Hids' Hlen.
  inversion Hids as [|? ? Hid Hmore]; subst.
  exists (JsMap.set id
            (mkBackupRow (structuredClone first)
                         (Z.of_nat (List.length (first :: more)))) d).
  split; [|split; [|split]].
  - cbn [backup_all]. rewrite (backup_absent first id d Hid Hget).
    cbn [rbind].
    rewrite (backup_all_present more id _
               (mkBackupRow (structuredClone first) 1)
               (get_set_same _ _ _) Hmore).
    rewrite set_set. simpl row. simpl subscribers. do 3 f_equal.
    simpl List.length. lia.
  - unfold PessimisticBackup.subscribers, PessimisticBackup.get.
    now rewrite get_set_same.
  - rewrite <- Hlen.
    apply release_all_counting; [assumption | | assumption].
    intros ->. discriminate.
  - apply release_absent with id; [assumption|].
    now apply has_false_get.
Qed.

Lemma balanced_backups_and_releases_witness :
  exists d',
    backup_all [score_row 1; score_row 2; score_row 3] PessimisticBackup.new
    = Ok d'
    /\ PessimisticBackup.subscribers (PStr "1") d' = Ok 3
    /\ release_all [score_row 3; score_row 1; score_row 2] d'
       = Ok (repeat (VClone (score_data 1) "1") 3, PessimisticBackup.new)
    /\ PessimisticBackup.release (score_row 1) PessimisticBackup.new
       = Throw RowNotFoundInBackup.
Proof.
  apply (balanced_backups_and_releases (score_row 1)
           [score_row 2; score_row 3]
           [score_row 3; score_row 1; score_row 2] (PStr "1"));
    [reflexivity | repeat constructor | repeat constructor | reflexivity].
Defined.

(** ** Local mutations, continued *)

Lemma _upsertInternal_TableRow data id t :
  _upsertInternal (VTableRow data id) None t
  = Ok (with_store t (TableStore.store_upsert (PStr id) data (__store t))).
Proof. reflexivity. Qed.

Lemma with_backup_same t s :
  with_backup (with_store t s) (pessimisticBackup t) = with_store t s.
Proof. now destruct t. Qed.

(** The backup a mutation takes and the release of its success path. *)
Lemma _create_then_release t r id :
  refcounts_positive (pessimisticBackup t) ->
  get_id r = Ok id ->
  exists d1 snapshot,
    _createPessimisticRowBackup r t = Ok (with_backup t d1)
    /\ PessimisticBackup.release r d1 = Ok (snapshot, pessimisticBackup t).
Proof.
  intros Hpos Hid. unfold _createPessimisticRowBackup.
  destruct (PessimisticBackup.get id (pessimisticBackup t)) as [b|] eqn:Hget.
  - rewrite (backup_present r id _ b Hid Hget).
    do 2 eexists. split; [reflexivity|].
    apply backup_release_present; [|assumption|assumption].
    exact (refcounts_get _ id b Hpos Hget).
  - rewrite (backup_absent r id _ Hid Hget).
    do 2 eexists. split; [reflexivity|].
    now apply backup_release_absent.
Qed.

(** X3. An optimistic [update] of a [TableRow] whose remote call succeeds
    returns status true, has upserted the row's data under its identity,
    and leaves the backup log exactly as it was before the call. *)
Theorem optimistic_update_success (t : Table) (data : jsval) (id : string)
    (now : Date) (http : Z) :
  optimisticUpdates t = true ->
  succeeded http = true ->
  refcounts_positive (pessimisticBackup t) ->
  update now (VTableRow data id) http t
  = Returned (mkUpdateResult now true)
      (with_store t (TableStore.store_upsert (PStr id) data (__store t))).
Proof.
  intros Hopt Hok Hpos.
  destruct (_create_then_release t (VTableRow data id) (PStr id) Hpos eq_refl)
    as (d1 & snapshot & Hcreate & Hrelease).
  unfold update, update_begin, bind, step. rewrite Hopt, Hcreate.
  rewrite _upsertInternal_TableRow.
  unfold update_settle, bind, call, ret.
  unfold _releasePessimisticRowBackup.
  destruct t as [nm ks st cs lg opt pf]. simpl in *.
  rewrite Hopt, Hok. simpl. rewrite Hrelease. reflexivity.
Qed.

Lemma optimistic_update_success_witness :
  update (mkDate (Some 0)) (score_row 4) 204 in_flight
  = Returned (mkUpdateResult (mkDate (Some 0)) true)
      (with_store in_flight [(PStr "1", score_data 4)]).
Proof.
  apply (optimistic_update_success in_flight (score_data 4) "1"
           (mkDate (Some 0)) 204);
    [reflexivity | reflexivity | repeat constructor; simpl; lia].
Defined.

(** X4. An optimistic [delete] of a [TableRow] whose remote call succeeds
    returns true, has removed the identity from the cache, and leaves the
    backup log exactly as it was before the call. *)
Theorem optimistic_delete_success (t : Table) (data : jsval) (id : string)
    (http : Z) :
  optimisticUpdates t = true ->
  succeeded http = true ->
  refcounts_positive (pessimisticBackup t) ->
  delete (VTableRow data id) http t
  = Returned true
      (with_store t (TableStore.store_remove (PStr id) (__store t))).
Proof.
  intros Hopt Hok Hpos.
  destruct (_create_then_release t (VTableRow data id) (PStr id) Hpos eq_refl)
    as (d1 & snapshot & Hcreate & Hrelease).
  unfold delete, delete_begin, bind, step. rewrite Hopt, Hcreate.
  rewrite _deleteInternal_TableRow.
  unfold delete_settle, bind, call, ret.
  unfold _releasePessimisticRowBackup.
  destruct t as [nm ks st cs lg opt pf]. simpl in *.
  rewrite Hopt, Hok. simpl. rewrite Hrelease. reflexivity.
Qed.

Lemma optimistic_delete_success_witness :
  delete (score_row 0) 200 (scores true)
  = Returned true (with_store (scores true) []).
Proof.
  apply (optimistic_delete_success (scores true) (score_data 0) "1" 200);
    [reflexivity | reflexivity | constructor].
Defined.

Lemma delete_begin_TableRow t data id d' :
  optimisticUpdates t = true ->
  PessimisticBackup.backup (VTableRow data id) (pessimisticBackup t) = Ok d' ->
  delete_begin (VTableRow data id) t
  = Returned tt
      (with_store (with_backup t d')
         (TableStore.store_remove (PStr id) (__store t))).
Proof.
  intros Hopt Hb. unfold delete_begin, bind, step. rewrite Hopt.
  unfold _createPessimisticRowBackup. rewrite Hb. reflexivity.
Qed.

Lemma delete_settle_rollback t r id b data http :
  keys_accept_backup_rows (keys t) ->
  get_id r = Ok (PStr id) ->
  PessimisticBackup.get (PStr id) (pessimisticBackup t) = Some b ->
  row b = VClone data id ->
  optimisticUpdates t = true -> succeeded http = false ->
  delete_settle r http t
  = Returned false
      (with_store t (TableStore.store_upsert (PStr id) data (__store t))).
Proof.
  intros Hkeys Hid Hget Hrow Hopt Hfail.
  unfold delete_settle, bind, read, step, ret. rewrite Hopt, Hfail.
  unfold _getPessimisticRowBackup. rewrite Hid. simpl.
  unfold PessimisticBackup.get_value. rewrite Hget, Hrow.
  now rewrite _upsertInternal_BackupRow.
Qed.

(** X5. An optimistic [delete] of a [TableRow] whose remote call fails
    returns false and puts the row back: the cache holds the row's data
    under its identity again, now as the last entry.  The backup entry it
    took stays in the log. *)
Theorem optimistic_delete_failure_restores (t : Table) (data : jsval)
    (id : string) (http : Z) :
  optimisticUpdates t = true ->
  succeeded http = false ->
  keys_accept_backup_rows (keys t) ->
  PessimisticBackup.get (PStr id) (pessimisticBackup t) = None ->
  exists t',
    delete (VTableRow data id) http t = Returned false t'
    /\ __store t'
       = TableStore.store_upsert (PStr id) data
           (TableStore.store_remove (PStr id) (__store t))
    /\ TableStore.store_get (PStr id) (__store t') = Some data
    /\ PessimisticBackup.get (PStr id) (pessimisticBackup t')
       = Some (mkBackupRow (VClone data id) 1).
Proof.
  intros Hopt Hfail Hkeys Hget.
  unfold delete, bind.
  rewrite (delete_begin_TableRow t data id _ Hopt
             (backup_absent (VTableRow data id) (PStr id) _ eq_refl Hget)).
  rewrite (delete_settle_rollback _ (VTableRow data id) id
             (mkBackupRow (VClone data id) 1) data http);
    [| destruct t; exact Hkeys | reflexivity
     | destruct t; apply get_set_same | reflexivity
     | destruct t; exact Hopt | exact Hfail].
  eexists. split; [reflexivity|].
  destruct t as [nm ks st cs lg opt pf].
  split; [reflexivity|]. split; apply get_set_same.
Qed.

Lemma optimistic_delete_failure_restores_witness :
  exists t',
    delete (score_row 0) 503 (scores true) = Returned false t'
    /\ __store t'
       = TableStore.store_upsert (PStr "1") (score_data 0)
           (TableStore.store_remove (PStr "1") (__store (scores true)))
    /\ TableStore.store_get (PStr "1") (__store t') = Some (score_data 0)
    /\ PessimisticBackup.get (PStr "1") (pessimisticBackup t')
       = Some (mkBackupRow (VClone (score_data 0) "1") 1).
Proof.
  apply (optimistic_delete_failure_restores (scores true) (score_data 0)
           "1" 503);
    [reflexivity | reflexivity | exact id_column_accepts_backup_rows
    | reflexivity].
Defined.

Lemma on_postgres_changes_pending {rel : Relational}
    (payload : Payload.t) t data id event timestamp :
  __parseSubscriptionPayload payload t
  = Ok (VTableRow data id, event, timestamp) ->
  checkConditions (VTableRow data id) (conditions t) = Ok true ->
  event = "INSERT" \/ event = "UPDATE" ->
  PessimisticBackup.has (PStr id) (pessimisticBackup t) = true ->
  on_postgres_changes payload t = Ok t.
Proof.
  intros Hparse Hcheck Hkind Hhas.
  unfold on_postgres_changes. rewrite Hparse. cbn [rbind].
  rewrite Hcheck. cbn [rbind Bool.eqb].
  destruct Hkind as [-> | ->]; cbn [String.eqb Ascii.eqb Bool.eqb orb];
    unfold _upsertInternal; cbn [instanceof_TableRow rbind get_id];
    now rewrite Hhas.
Qed.

(** X6. On a table with no backup of the row's identity pending and
    whose [generateRowID] answers on [BackupRow] objects: after an
    optimistic [update] of a [TableRow] whose remote call failed, the
    backup entry of the row stays in the log, so every later INSERT or
    UPDATE push event about that identity that passes the ConditionSet is
    dropped: the table stays as the failed call left it. *)
Theorem failed_update_silences_later_events {rel : Relational}
    (t : Table) (data : jsval) (id : string) (now : Date) (http : Z) :
  optimisticUpdates t = true ->
  succeeded http = false ->
  keys_accept_backup_rows (keys t) ->
  PessimisticBackup.get (PStr id) (pessimisticBackup t) = None ->
  exists t1,
    update now (VTableRow data id) http t
    = Returned (mkUpdateResult now false) t1
    /\ PessimisticBackup.get (PStr id) (pessimisticBackup t1)
       = Some (mkBackupRow (VClone data id) 1)
    /\ forall payload data' event timestamp,
         __parseSubscriptionPayload payload t1
         = Ok (VTableRow data' id, event, timestamp) ->
         checkConditions (VTableRow data' id) (conditions t1) = Ok true ->
         event = "INSERT" \/ event = "UPDATE" ->
         on_postgres_changes payload t1 = Ok t1.
Proof.
  intros Hopt Hfail Hkeys Hget.
  unfold update, bind.
  rewrite (update_begin_TableRow t data id _ Hopt
             (backup_absent (VTableRow data id) (PStr id) _ eq_refl Hget)).
  rewrite (update_settle_rollback _ now (VTableRow data id) id
             (mkBackupRow (VClone data id) 1) data http);
    [| destruct t; exact Hkeys | reflexivity
     | destruct t; apply get_set_same | reflexivity
     | destruct t; simpl in *; now rewrite Hopt, Hfail].
  rewrite Hfail. eexists. split; [reflexivity|].
  assert (Hlog : PessimisticBackup.get (PStr id)
            (pessimisticBackup
               (with_store
                  (with_store
                     (with_backup t
                        (JsMap.set (PStr id)
                           (mkBackupRow (structuredClone (VTableRow data id)) 1)
                           (pessimisticBackup t)))
                     (TableStore.store_upsert (PStr id) data (__store t)))
                  (TableStore.store_upsert (PStr id) data
                     (__store
                        (with_store
                           (with_backup t
                              (JsMap.set (PStr id)
                                 (mkBackupRow
                                    (structuredClone (VTableRow data id)) 1)
                                 (pessimisticBackup t)))
                           (TableStore.store_upsert (PStr id) data
                              (__store t)))))))
          = Some (mkBackupRow (VClone data id) 1))
    by (destruct t; apply get_set_same).
  split; [exact Hlog|].
  intros payload data' event timestamp Hparse Hcheck Hkind.
  apply (on_postgres_changes_pending payload _ data' id event timestamp);
    try assumption.
  apply has_true_get. eexists. exact Hlog.
Qed.

Lemma failed_update_silences_later_events_witness :
  exists t1,
    update (mkDate (Some 0)) (score_row 1) 500 (scores true)
    = Returned (mkUpdateResult (mkDate (Some 0)) false) t1
    /\ on_postgres_changes (pushed "UPDATE" 8) t1 = Ok t1.
Proof.
  destruct (@failed_update_silences_later_events integer_cells
              (scores true) (score_data 1) "1" (mkDate (Some 0)) 500
              eq_refl eq_refl id_column_accepts_backup_rows eq_refl)
    as (t1 & Hupdate & _ & Hlater).
  exists t1. split; [exact Hupdate|].
  injection Hupdate as <-.
  apply (Hlater (pushed "UPDATE" 8) (score_data 8) "UPDATE"
           (mkDate (Some 1700000000000)));
    [reflexivity | reflexivity | right; reflexivity].
Defined.

(** A plain row whose [row] column is not truthy is stored under the
    identity its key columns generate. *)
Lemma _upsertInternal_plain fs gen t :
  prim_truthy (lookup_field "row" fs) = false ->
  generateRowID (keys t) (VObj fs) = Ok gen ->
  _upsertInternal (VObj fs) None t
  = Ok (with_store t
          (TableStore.store_upsert (PStr gen) (VObj fs) (__store t))).
Proof.
  intros Hrow Hgen.
  unfold _upsertInternal, TableStore.upsert, TableStore.__convertRow,
    new_TableRow.
  cbn [instanceof_TableRow get_prop truthy rbind].
  rewrite Hgen, Hrow. reflexivity.
Qed.

(** Restoring from the [BackupRow] of a plain row: [__convertRow] hands
    the plain snapshot on as if it were a [TableRow]. *)
Lemma _upsertInternal_BackupRow_plain fs n t :
  keys_accept_backup_rows (keys t) ->
  _upsertInternal (VBackupRow (VObj fs) n) None t
  = Ok (with_store t
          (TableStore.store_upsert (lookup_field "id" fs)
             (VPrim (lookup_field "data" fs)) (__store t))).
Proof.
  intros Hkeys. unfold _upsertInternal, new_TableRow. simpl.
  destruct (Hkeys (VObj fs) n) as [s ->]. reflexivity.
Qed.

Lemma update_begin_plain t fs gen d' :
  optimisticUpdates t = true ->
  PessimisticBackup.backup (VObj fs) (pessimisticBackup t) = Ok d' ->
  prim_truthy (lookup_field "row" fs) = false ->
  generateRowID (keys t) (VObj fs) = Ok gen ->
  update_begin (VObj fs) t
  = Returned tt
      (with_store (with_backup t d')
         (TableStore.store_upsert (PStr gen) (VObj fs) (__store t))).
Proof.
  intros Hopt Hb Hrow Hgen. unfold update_begin, bind, step. rewrite Hopt.
  unfold _createPessimisticRowBackup. rewrite Hb. cbn [rbind].
  rewrite (_upsertInternal_plain fs gen) by (destruct t; assumption).
  reflexivity.
Qed.

Lemma update_settle_rollback_plain t now r k b fs http :
  keys_accept_backup_rows (keys t) ->
  get_id r = Ok k ->
  PessimisticBackup.get k (pessimisticBackup t) = Some b ->
  row b = VObj fs ->
  optimisticUpdates t && succeeded http = false ->
  update_settle now r http t
  = Returned (mkUpdateResult now (succeeded http))
      (with_store t
         (TableStore.store_upsert (lookup_field "id" fs)
            (VPrim (lookup_field "data" fs)) (__store t))).
Proof.
  intros Hkeys Hid Hget Hrow Hmode.
  unfold update_settle, bind, read, step, ret. rewrite Hmode.
  unfold _getPessimisticRowBackup. rewrite Hid. simpl.
  unfold PessimisticBackup.get_value. rewrite Hget, Hrow.
  now rewrite _upsertInternal_BackupRow_plain.
Qed.

(** X7. [update] accepts a plain row object, but its rollback does not
    restore one.  On a table with no backup pending under the value of
    the row's [id] column and whose [generateRowID] answers on the row
    and on [BackupRow] objects: after a failed optimistic [update] of a
    plain row with no truthy [row] column, the cache holds the row under
    its generated identity and, written after it, an entry under the
    value of the row's [id] column that holds the value of its [data]
    column ([undefined] when the row has no such column); the call still
    returns status false. *)
Theorem plain_row_rollback_writes_id_and_data_columns
    (t : Table) (fs : list (string * prim)) (gen : string) (now : Date)
    (http : Z) :
  optimisticUpdates t = true ->
  succeeded http = false ->
  keys_accept_backup_rows (keys t) ->
  generateRowID (keys t) (VObj fs) = Ok gen ->
  prim_truthy (lookup_field "row" fs) = false ->
  PessimisticBackup.get (lookup_field "id" fs) (pessimisticBackup t) = None ->
  exists t',
    update now (VObj fs) http t = Returned (mkUpdateResult now false) t'
    /\ __store t'
       = TableStore.store_upsert (lookup_field "id" fs)
           (VPrim (lookup_field "data" fs))
           (TableStore.store_upsert (PStr gen) (VObj fs) (__store t)).
Proof.
  intros Hopt Hfail Hkeys Hgen Hrow Hget.
  unfold update, bind.
  rewrite (update_begin_plain t fs gen _ Hopt
             (backup_absent (VObj fs) (lookup_field "id" fs) _ eq_refl Hget)
             Hrow Hgen).
  rewrite (update_settle_rollback_plain _ now (VObj fs)
             (lookup_field "id" fs) (mkBackupRow (VObj fs) 1) fs http);
    [| destruct t; exact Hkeys | reflexivity
     | destruct t; apply get_set_same | reflexivity
     | destruct t; simpl in *; now rewrite Hopt, Hfail].
  rewrite Hfail. eexists. split; [reflexivity|]. now destruct t.
Qed.

Lemma plain_row_rollback_writes_id_and_data_columns_witness :
  exists t',
    update (mkDate (Some 0)) (score_data 1) 500 (scores true)
    = Returned (mkUpdateResult (mkDate (Some 0)) false) t'
    /\ __store t' = [(PStr "1", undefined)].
Proof.
  apply (plain_row_rollback_writes_id_and_data_columns (scores true)
           [("id", PStr "1"); ("score", PNum 1)] "1" (mkDate (Some 0)) 500);
    [reflexivity | reflexivity | exact id_column_accepts_backup_rows
    | reflexivity | reflexivity | reflexivity].
Defined.

(** ** The backup log under the methods of the table *)

Lemma backup_keeps_ok r d d' :
  one_entry_per_identity d -> refcounts_positive d ->
  PessimisticBackup.backup r d = Ok d' ->
  one_entry_per_identity d' /\ refcounts_positive d'.
Proof.
  intros Hone Hpos Hb.
  apply backup_inv in Hb as (id & _ & [[_ ->]|(b & Hget & ->)]).
  - split; [now apply set_one_entry|].
    apply refcounts_set; [assumption | simpl; lia].
  - split; [now apply set_one_entry|].
    apply refcounts_set; [assumption|]. simpl.
    pose proof (refcounts_get _ _ _ Hpos Hget). lia.
Qed.

Lemma release_keeps_ok r d snapshot d' :
  one_entry_per_identity d -> refcounts_positive d ->
  PessimisticBackup.release r d = Ok (snapshot, d') ->
  one_entry_per_identity d' /\ refcounts_positive d'.
Proof.
  intros Hone Hpos Hr.
  apply release_inv in Hr as (id & b & _ & Hget & _ & ->).
  destruct (subscribers b - 1 =? 0) eqn:Hz.
  - split; [now apply delete_one_entry | now apply refcounts_delete].
  - split; [now apply set_one_entry|].
    apply refcounts_set; [assumption|]. simpl.
    pose proof (refcounts_get _ _ _ Hpos Hget).
    apply Z.eqb_neq in Hz. lia.
Qed.

Lemma log_ok_same_settings t t' : same_settings t t' -> log_ok t -> log_ok t'.
Proof.
  unfold same_settings, log_ok. intros -> H. now destruct t.
Qed.

Lemma _deleteInternal_settings r t t' :
  _deleteInternal r t = Ok t' -> same_settings t t'.
Proof.
  unfold _deleteInternal.
  destruct (TableStore.delete (keys t) r (__store t)) as [s|e]; simpl;
    [|discriminate].
  intros [= <-]. reflexivity.
Qed.

Lemma keeps_ret {A} (a : A) : keeps_log_ok (ret a).
Proof. intros t H. exact H. Qed.

Lemma keeps_bind {A B} (m : M A) (k : A -> M B) :
  keeps_log_ok m -> (forall a, keeps_log_ok (k a)) -> keeps_log_ok (bind m k).
Proof.
  intros Hm Hk t Ht. unfold bind. specialize (Hm t Ht).
  destruct (m t) as [a t1|e t1]; [now apply Hk | exact Hm].
Qed.

Lemma keeps_step f :
  (forall t t', f t = Ok t' -> log_ok t -> log_ok t') ->
  keeps_log_ok (step f).
Proof.
  intros Hf t Ht. unfold step.
  destruct (f t) as [t'|e] eqn:Hft; [now apply (Hf t) | exact Ht].
Qed.

Lemma keeps_call {A} (f : Table -> result (A * Table)) :
  (forall t a t', f t = Ok (a, t') -> log_ok t -> log_ok t') ->
  keeps_log_ok (call f).
Proof.
  intros Hf t Ht. unfold call.
  destruct (f t) as [[a t']|e] eqn:Hft; [now apply (Hf t a) | exact Ht].
Qed.

Lemma keeps_read {A} (f : Table -> result A) : keeps_log_ok (read f).
Proof. intros t Ht. unfold read. now destruct (f t). Qed.

Lemma keeps_upsert r timestamp : keeps_log_ok (step (_upsertInternal r timestamp)).
Proof.
  apply keeps_step. intros t t' H.
  apply log_ok_same_settings. now apply _upsertInternal_settings in H.
Qed.

Lemma keeps_deleteInternal r : keeps_log_ok (step (_deleteInternal r)).
Proof.
  apply keeps_step. intros t t' H.
  apply log_ok_same_settings. now apply _deleteInternal_settings in H.
Qed.

Lemma keeps_create r : keeps_log_ok (step (_createPessimisticRowBackup r)).
Proof.
  apply keeps_step. intros t t'. unfold _createPessimisticRowBackup.
  destruct (PessimisticBackup.backup r (pessimisticBackup t)) as [d|e] eqn:Hb;
    simpl; [|discriminate].
  intros [= <-] [Hone Hpos].
  destruct (backup_keeps_ok _ _ _ Hone Hpos Hb).
  unfold log_ok. now destruct t.
Qed.

Lemma keeps_release r : keeps_log_ok (call (_releasePessimisticRowBackup r)).
Proof.
  apply keeps_call. intros t a t'. unfold _releasePessimisticRowBackup.
  destruct (PessimisticBackup.release r (pessimisticBackup t))
    as [[s d]|e] eqn:Hr; simpl; [|discriminate].
  intros [= <- <-] [Hone Hpos].
  destruct (release_keeps_ok _ _ _ _ Hone Hpos Hr).
  unfold log_ok. now destruct t.
Qed.

Lemma keeps_ingest rows : keeps_log_ok (ingest rows).
Proof.
  induction rows as [|r rows IH]; simpl.
  - apply keeps_ret.
  - apply keeps_bind; [apply keeps_upsert | intros _; exact IH].
Qed.

(** X8. Every method of the table keeps the backup log well formed (at
    most one entry per identity, every refcount at least 1), whether it
    returns or throws: both halves of [update] and of [delete], the
    handling of a push event, and the ingestion of fetched rows. *)
Theorem methods_keep_log_well_formed {rel : Relational} (t : Table) :
  log_ok t ->
  (forall r, log_ok (table_after (update_begin r t)))
  /\ (forall now r http, log_ok (table_after (update_settle now r http t)))
  /\ (forall r, log_ok (table_after (delete_begin r t)))
  /\ (forall r http, log_ok (table_after (delete_settle r http t)))
  /\ (forall payload t', on_postgres_changes payload t = Ok t' -> log_ok t')
  /\ (forall rows, log_ok (table_after (ingest rows t))).
Proof.
  intros Ht.
  split; [|split; [|split; [|split; [|split]]]].
  - intros r. unfold update_begin.
    destruct (optimisticUpdates t); [|exact Ht].
    apply (keeps_bind _ _ (keeps_create r)); [|exact Ht].
    intros _. apply keeps_upsert.
  - intros now r http. unfold update_settle.
    apply keeps_bind; [|intros _; apply keeps_ret|exact Ht].
    destruct (optimisticUpdates t && succeeded http).
    + apply (keeps_bind _ _ (keeps_release r)). intros _. apply keeps_ret.
    + apply keeps_bind; [apply keeps_read|]. intros revoked.
      apply keeps_upsert.
  - intros r. unfold delete_begin.
    destruct (optimisticUpdates t); [|exact Ht].
    apply (keeps_bind _ _ (keeps_create r)); [|exact Ht].
    intros _. apply keeps_deleteInternal.
  - intros r http. unfold delete_settle.
    destruct (optimisticUpdates t); [destruct (succeeded http)|].
    + apply (keeps_bind _ _ (keeps_release r)); [|exact Ht].
      intros _. apply keeps_ret.
    + apply keeps_bind; [apply keeps_read| |exact Ht]. intros revoked.
      apply keeps_bind; [apply keeps_upsert|]. intros _. apply keeps_ret.
    + apply (keeps_bind _ _ (keeps_release r)); [|exact Ht].
      intros _. apply keeps_ret.
  - intros payload t'. unfold on_postgres_changes.
    destruct (__parseSubscriptionPayload payload t)
      as [[[tableRow event] timestamp]|e]; simpl; [|discriminate].
    destruct (checkConditions tableRow (conditions t)) as [relevant|e];
      simpl; [|discriminate].
    destruct (Bool.eqb relevant false).
    + intros H. apply _deleteInternal_settings in H.
      now apply (log_ok_same_settings t).
    + destruct (String.eqb event "INSERT" || String.eqb event "UPDATE").
      * intros H. apply _upsertInternal_settings in H.
        now apply (log_ok_same_settings t).
      * destruct (String.eqb event "DELETE").
        -- intros H. apply _deleteInternal_settings in H.
           now apply (log_ok_same_settings t).
        -- now intros [= <-].
  - intros rows. now apply keeps_ingest.
Qed.

Lemma methods_keep_log_well_formed_witness :
  log_ok (table_after
            (update_settle (mkDate (Some 0)) (score_row 1) 200 in_flight))
  /\ log_ok (table_after (delete_begin (score_row 1) in_flight)).
Proof.
  assert (Hok : log_ok in_flight).
  { split; repeat constructor; simpl; [tauto | lia]. }
  destruct (@methods_keep_log_well_formed integer_cells in_flight Hok)
    as (_ & Hsettle & Hbegin & _).
  split; [apply Hsettle | apply Hbegin].
Defined.

(** ** Push events, continued *)

Section PushEventFacts.
Context {rel : Relational}.

Lemma on_postgres_changes_parsed (payload : Payload.t) t tableRow event
    timestamp relevant :
  __parseSubscriptionPayload payload t = Ok (tableRow, event, timestamp) ->
  checkConditions tableRow (conditions t) = Ok relevant ->
  on_postgres_changes payload t
  = (if Bool.eqb relevant false then _deleteInternal tableRow t
     else if String.eqb event "INSERT" || String.eqb event "UPDATE"
          then _upsertInternal tableRow (Some timestamp) t
     else if String.eqb event "DELETE" then _deleteInternal tableRow t
     else Ok t).
Proof.
  intros Hparse Hcheck. unfold on_postgres_changes.
  rewrite Hparse. cbn [rbind]. rewrite Hcheck. reflexivity.
Qed.

Lemma on_postgres_changes_settings (payload : Payload.t) t t' :
  on_postgres_changes payload t = Ok t' -> same_settings t t'.
Proof.
  unfold on_postgres_changes.
  destruct (__parseSubscriptionPayload payload t)
    as [[[tableRow event] timestamp]|e]; simpl; [|discriminate].
  destruct (checkConditions tableRow (conditions t)) as [relevant|e];
    simpl; [|discriminate].
  destruct (Bool.eqb relevant false);
    [apply _deleteInternal_settings|].
  destruct (String.eqb event "INSERT" || String.eqb event "UPDATE");
    [apply _upsertInternal_settings|].
  destruct (String.eqb event "DELETE"); [apply _deleteInternal_settings|].
  intros [= <-]. apply same_settings_refl.
Qed.

Lemma checkCondition_object fs id c :
  exists holds, checkCondition (VTableRow (VObj fs) id) c = Ok holds.
Proof.
  unfold checkCondition, cell. cbn [get_prop String.eqb Ascii.eqb Bool.eqb rbind].
  repeat match goal with
  | |- context [if ?b then _ else _] => destruct b
  end; eauto.
Qed.

Lemma checkConditions_object fs id cs :
  exists relevant, checkConditions (VTableRow (VObj fs) id) cs = Ok relevant.
Proof.
  induction cs as [|c cs [relevant IH]]; simpl; [eauto|].
  destruct (checkCondition_object fs id c) as [[|] ->]; simpl; eauto.
Qed.

Lemma checkCondition_no_data c id p :
  p = PUndefined \/ p = PNull ->
  In (type c) recognized_operators ->
  checkCondition (VTableRow (VPrim p) id) c = Throw TypeError.
Proof.
  intros Hp Hin. unfold checkCondition, cell. simpl in Hin.
  destruct Hp as [-> | ->];
    repeat (destruct Hin as [<-|Hin]; [reflexivity|]); contradiction.
Qed.
End PushEventFacts.

Lemma _upsertInternal_TableRow_pushed data id timestamp t :
  _upsertInternal (VTableRow data id) (Some timestamp) t
  = if PessimisticBackup.has (PStr id) (pessimisticBackup t) then Ok t
    else Ok (with_store t
               (TableStore.store_upsert (PStr id) data (__store t))).
Proof.
  unfold _upsertInternal. cbn [instanceof_TableRow rbind get_id].
  now destruct (PessimisticBackup.has _ _).
Qed.

(** The row a push event is about: [payload.old] for a DELETE, else
    [payload.new]. *)
Lemma parse_selected (payload : Payload.t) t :
  __parseSubscriptionPayload payload t
  = (let? tableRow :=
       new_TableRow
         (if String.eqb (Payload.eventType payload) "DELETE"
          then Payload.old payload else Payload.new payload) (keys t) in
     Ok (tableRow, Payload.eventType payload,
         mkDate (Payload.commit_timestamp payload)))%result.
Proof. reflexivity. Qed.

(** X9. What a push event does when its row passes the ConditionSet: an
    INSERT or UPDATE whose identity has no pending backup upserts the
    row's data under its identity; a DELETE removes the identity; an
    event of any other kind leaves the table as it is. *)
Theorem relevant_push_event_cases {rel : Relational}
    (payload : Payload.t) (t : Table) (data : jsval) (id event : string)
    (timestamp : Date) :
  __parseSubscriptionPayload payload t
  = Ok (VTableRow data id, event, timestamp) ->
  checkConditions (VTableRow data id) (conditions t) = Ok true ->
  (event = "INSERT" \/ event = "UPDATE" ->
   PessimisticBackup.has (PStr id) (pessimisticBackup t) = false ->
   on_postgres_changes payload t
   = Ok (with_store t (TableStore.store_upsert (PStr id) data (__store t))))
  /\ (event = "DELETE" ->
      on_postgres_changes payload t
      = Ok (with_store t (TableStore.store_remove (PStr id) (__store t))))
  /\ (event <> "INSERT" -> event <> "UPDATE" -> event <> "DELETE" ->
      on_postgres_changes payload t = Ok t).
Proof.
  intros Hparse Hcheck.
  rewrite (on_postgres_changes_parsed payload t _ _ _ _ Hparse Hcheck).
  cbn [Bool.eqb]. split; [|split].
  - intros Hkind Hhas.
    assert (Hk : String.eqb event "INSERT" || String.eqb event "UPDATE" = true)
      by (destruct Hkind as [-> | ->]; reflexivity).
    rewrite Hk. unfold _upsertInternal.
    cbn [instanceof_TableRow rbind get_id]. now rewrite Hhas.
  - intros ->. reflexivity.
  - intros Hi Hu Hd.
    apply String.eqb_neq in Hi, Hu, Hd. now rewrite Hi, Hu, Hd.
Qed.

Lemma relevant_push_event_cases_witness :
  on_postgres_changes (pushed "INSERT" 3) (scores false)
  = Ok (with_store (scores false) [(PStr "1", score_data 3)])
  /\ on_postgres_changes (pushed "DELETE" 3) (scores false)
     = Ok (with_store (scores false) [])
  /\ on_postgres_changes (pushed "TRUNCATE" 3) (scores false)
     = Ok (scores false).
Proof.
  split; [|split].
  - apply (@relevant_push_event_cases integer_cells (pushed "INSERT" 3)
             (scores false) (score_data 3) "1" "INSERT"
             (mkDate (Some 1700000000000)) eq_refl eq_refl);
      [left; reflexivity | reflexivity].
  - apply (@relevant_push_event_cases integer_cells (pushed "DELETE" 3)
             (scores false) (score_data 3) "1" "DELETE"
             (mkDate (Some 1700000000000)) eq_refl eq_refl).
    reflexivity.
  - apply (@relevant_push_event_cases integer_cells (pushed "TRUNCATE" 3)
             (scores false) (score_data 3) "1" "TRUNCATE"
             (mkDate (Some 1700000000000)) eq_refl eq_refl);
      discriminate.
Defined.

(** X10. A push event about a plain row object, for which the primary
    keys generate an identity, is always handled without an exception,
    whatever its kind, the conditions and the state of the table. *)
Theorem push_event_on_object_row_never_throws {rel : Relational}
    (payload : Payload.t) (t : Table) (fs : list (string * prim))
    (id : string) :
  (if String.eqb (Payload.eventType payload) "DELETE"
   then Payload.old payload else Payload.new payload) = VObj fs ->
  generateRowID (keys t) (VObj fs) = Ok id ->
  exists t', on_postgres_changes payload t = Ok t'.
Proof.
  intros Hrow Hgen.
  destruct (checkConditions_object fs id (conditions t)) as [relevant Hcheck].
  rewrite (on_postgres_changes_parsed payload t (VTableRow (VObj fs) id)
             (Payload.eventType payload)
             (mkDate (Payload.commit_timestamp payload)) relevant).
  - destruct (Bool.eqb relevant false);
      [rewrite _deleteInternal_TableRow; eauto|].
    destruct (String.eqb _ "INSERT" || String.eqb _ "UPDATE").
    + rewrite _upsertInternal_TableRow_pushed.
      destruct (PessimisticBackup.has _ _); eauto.
    + destruct (String.eqb _ "DELETE");
        [rewrite _deleteInternal_TableRow|]; eauto.
  - rewrite parse_selected, Hrow. unfold new_TableRow. now rewrite Hgen.
  - exact Hcheck.
Qed.

Lemma push_event_on_object_row_never_throws_witness :
  exists t',
    on_postgres_changes (pushed "UPDATE" 3)
      (addCondition below_five in_flight) = Ok t'.
Proof.
  apply (@push_event_on_object_row_never_throws integer_cells
           (pushed "UPDATE" 3) (addCondition below_five in_flight)
           [("id", PStr "1"); ("score", PNum 3)] "1");
    reflexivity.
Defined.

(** X11. A push event that carries no row ([undefined] or [null] where
    the row is read) is not guarded: on a table whose first condition has
    one of the six operators, handling it throws and the table is not
    changed. *)
Theorem push_event_without_row_throws {rel : Relational}
    (payload : Payload.t) (t : Table) (p : prim) (c : Condition)
    (cs : Conditions) :
  (if String.eqb (Payload.eventType payload) "DELETE"
   then Payload.old payload else Payload.new payload) = VPrim p ->
  p = PUndefined \/ p = PNull ->
  conditions t = c :: cs ->
  In (type c) recognized_operators ->
  exists e, on_postgres_changes payload t = Throw e.
Proof.
  intros Hrow Hp Hconds Hin.
  unfold on_postgres_changes. rewrite parse_selected, Hrow.
  unfold new_TableRow.
  destruct (generateRowID (keys t) (VPrim p)) as [id|e]; cbn [rbind];
    [|eauto].
  rewrite Hconds. cbn [checkConditions].
  rewrite (checkCondition_no_data c id p Hp Hin). cbn [rbind]. eauto.
Qed.

Lemma push_event_without_row_throws_witness :
  exists e,
    on_postgres_changes
      (Payload.mk (score_data 3) undefined "DELETE" (Some 0))
      (addCondition below_five (scores false)) = Throw e.
Proof.
  apply (@push_event_without_row_throws integer_cells
           (Payload.mk (score_data 3) undefined "DELETE" (Some 0))
           (addCondition below_five (scores false))
           PUndefined below_five []);
    [reflexivity | left; reflexivity | reflexivity | simpl; tauto].
Defined.

(** ** Conditions, continued *)

Section ConditionMoreFacts.
Context {rel : Relational}.

Lemma checkConditions_app this cs1 cs2 :
  checkConditions this (cs1 ++ cs2)%list
  = (let? holds := checkConditions this cs1 in
     if (holds : bool) then checkConditions this cs2 else Ok false)%result.
Proof.
  induction cs1 as [|c cs1 IH]; simpl; [reflexivity|].
  destruct (checkCondition this c) as [[|]|e]; simpl; [exact IH | | ];
    reflexivity.
Qed.
End ConditionMoreFacts.

(** X12. [filter(condition)] can only narrow the view: after it, a row is
    relevant exactly when it was relevant before and also satisfies the
    new condition, and a row that was irrelevant stays irrelevant,
    whatever the new condition is (it is not even evaluated). *)
Theorem filter_narrows {rel : Relational} (c : Condition) (t : Table)
    (this : jsval) :
  (checkConditions this (conditions (addCondition c t)) = Ok true
   <-> checkConditions this (conditions t) = Ok true
       /\ checkCondition this c = Ok true)
  /\ (checkConditions this (conditions t) = Ok false ->
      checkConditions this (conditions (addCondition c t)) = Ok false).
Proof.
  assert (Hconds : conditions (addCondition c t) = (conditions t ++ [c])%list)
    by reflexivity.
  rewrite Hconds, checkConditions_app. split.
  - destruct (checkConditions this (conditions t)) as [[|]|e];
      cbn [rbind checkConditions].
    + destruct (checkCondition this c) as [[|]|e]; cbn [rbind negb];
        split; try tauto; try discriminate;
        intros [_ H]; discriminate.
    + split; [discriminate | intros [H _]; discriminate].
    + split; [discriminate | intros [H _]; discriminate].
  - intros ->. reflexivity.
Qed.

Lemma filter_narrows_witness :
  checkConditions (score_row 3)
    (conditions (addCondition (mkCondition "gt" "score" (PNum 1))
                   (addCondition below_five (scores false)))) = Ok true
  /\ checkConditions (score_row 7)
       (conditions (addCondition (mkCondition "gt" "score" (PNum 1))
                      (addCondition below_five (scores false)))) = Ok false.
Proof.
  split.
  - apply (@filter_narrows integer_cells (mkCondition "gt" "score" (PNum 1))
             (addCondition below_five (scores false)) (score_row 3)).
    split; reflexivity.
  - apply (@filter_narrows integer_cells (mkCondition "gt" "score" (PNum 1))
             (addCondition below_five (scores false)) (score_row 7)).
    reflexivity.
Defined.

(** X13. Equality conditions on a column the row does not have: the cell
    reads as [undefined], so an [eq] condition fails and a [neq] condition
    holds for every literal other than [undefined]; and whatever the row,
    [neq] is the negation of [eq] on the same column and literal. *)
Theorem eq_conditions_on_missing_column {rel : Relational}
    (col : string) (v : prim) :
  (forall this,
     checkCondition this (mkCondition "neq" col v)
     = (let? holds := checkCondition this (mkCondition "eq" col v) in
        Ok (negb holds))%result)
  /\ (forall fs id,
        lookup_field col fs = PUndefined -> v <> PUndefined ->
        checkCondition (VTableRow (VObj fs) id) (mkCondition "eq" col v)
        = Ok false
        /\ checkCondition (VTableRow (VObj fs) id) (mkCondition "neq" col v)
           = Ok true).
Proof.
  split.
  - intros this. unfold checkCondition. cbn [type String.eqb Ascii.eqb Bool.eqb].
    now destruct (cell this _).
  - intros fs id Hmissing Hv.
    unfold checkCondition, cell.
    cbn [type column value String.eqb Ascii.eqb Bool.eqb get_prop rbind].
    rewrite Hmissing. unfold strict_eq.
    destruct (prim_eq_dec PUndefined v) as [<-|_]; [contradiction|].
    split; reflexivity.
Qed.

Lemma eq_conditions_on_missing_column_witness :
  checkCondition (score_row 3) (mkCondition "eq" "team" (PStr "red"))
  = Ok false
  /\ checkCondition (score_row 3) (mkCondition "neq" "team" (PStr "red"))
     = Ok true.
Proof.
  destruct (@eq_conditions_on_missing_column integer_cells "team"
              (PStr "red")) as [_ Hmissing].
  apply Hmissing; [reflexivity | discriminate].
Defined.

(** ** The cache, continued *)

(** X14. A plain row that has a truthy column named [row] is taken for a
    [BackupRow] by [__convertRow]: whatever its key columns are, [upsert]
    stores [undefined] under the identity [undefined] and [delete] removes
    that identity; the row's own identity is never generated. *)
Theorem plain_row_with_row_column_is_misread (keys : primaryKeys)
    (fs : list (string * prim)) (s : TableStore.t) :
  prim_truthy (lookup_field "row" fs) = true ->
  TableStore.upsert keys (VObj fs) s
  = Ok (TableStore.store_upsert PUndefined undefined s)
  /\ TableStore.delete keys (VObj fs) s
     = Ok (TableStore.store_remove PUndefined s).
Proof.
  intros Hrow.
  unfold TableStore.upsert, TableStore.delete, TableStore.__convertRow.
  cbn [instanceof_TableRow get_prop rbind truthy]. rewrite Hrow.
  destruct (lookup_field "row" fs); try discriminate; split; reflexivity.
Qed.

Lemma plain_row_with_row_column_is_misread_witness :
  TableStore.upsert id_column
    (VObj [("id", PStr "7"); ("row", PNum 3)]) TableStore.new
  = Ok [(PUndefined, undefined)]
  /\ TableStore.delete id_column
       (VObj [("id", PStr "7"); ("row", PNum 3)])
       [(PUndefined, undefined); (PStr "7", score_data 0)]
     = Ok [(PStr "7", score_data 0)].
Proof.
  split;
    apply (plain_row_with_row_column_is_misread id_column
             [("id", PStr "7"); ("row", PNum 3)]);
    reflexivity.
Defined.

(** X15. Round trip through the cache.  A plain row (with no truthy [row]
    column) that is upserted locally is stored under the identity its key
    columns generate, whatever the ConditionSet and the backup log hold;
    [getRow] then finds it both by that identity and by its key columns,
    and every other identity reads as before. *)
Theorem upsert_then_getRow (t : Table) (fs : list (string * prim))
    (gen : string) :
  prim_truthy (lookup_field "row" fs) = false ->
  generateRowID (keys t) (VObj fs) = Ok gen ->
  exists t',
    _upsertInternal (VObj fs) None t = Ok t'
    /\ getRow (VPrim (PStr gen)) t' = Ok (Some (VObj fs))
    /\ getRow (VObj fs) t' = Ok (Some (VObj fs))
    /\ forall id, id <> gen ->
         getRow (VPrim (PStr id)) t' = getRow (VPrim (PStr id)) t.
Proof.
  intros Hrow Hgen. eexists.
  split; [exact (_upsertInternal_plain fs gen t Hrow Hgen)|].
  destruct t as [nm ks st cs lg opt pf]. simpl in Hgen.
  unfold getRow, TableStore.getRow, with_store.
  cbn [keys __store]. rewrite Hgen. cbn [rbind].
  unfold TableStore.store_get, TableStore.store_upsert.
  rewrite get_set_same. repeat split.
  intros id Hne. rewrite get_set_other; [reflexivity|congruence].
Qed.

Lemma upsert_then_getRow_witness :
  exists t',
    _upsertInternal (VObj [("id", PStr "9"); ("score", PNum 9)]) None
      (addCondition below_five in_flight) = Ok t'
    /\ getRow (VPrim (PStr "9")) t'
       = Ok (Some (VObj [("id", PStr "9"); ("score", PNum 9)]))
    /\ getRow (VObj [("id", PStr "9"); ("score", PNum 9)]) t'
       = Ok (Some (VObj [("id", PStr "9"); ("score", PNum 9)]))
    /\ forall id, id <> "9" ->
         getRow (VPrim (PStr id)) t'
         = getRow (VPrim (PStr id)) (addCondition below_five in_flight).
Proof.
  apply (upsert_then_getRow (addCondition below_five in_flight)
           [("id", PStr "9"); ("score", PNum 9)] "9");
    reflexivity.
Defined.

(** ** Initial load, continued *)

Lemma window_of_fetchQuery t start end_ :
  window_of (Awaited (fetchQuery t start end_)) = Some (start, end_).
Proof. reflexivity. Qed.

Section InitialLoadMore.
Variable supabase : Query.t -> Response.t.

Lemma fetch_loop_settings fuel : forall count start t effects o,
  fetch_loop fuel supabase count start t = Some (effects, o) ->
  same_settings t (table_after o).
Proof.
  induction fuel as [|fuel IH]; intros count start t effects o;
    [discriminate|].
  cbn [fetch_loop]. destruct (start <? count).
  - destruct (Response.error _).
    + intros [= <- <-]. apply same_settings_refl.
    + pose proof (ingest_settings
                    (or_empty (Response.data
                       (supabase
                          (fetchQuery t start (start + pageSize - 1))))) t)
        as Hset.
      destruct (ingest _ t) as [[] t1|e t1].
      * destruct (fetch_loop fuel supabase count (start + pageSize) t1)
          as [[effects' o']|] eqn:Hrest; [|discriminate].
        intros [= <- <-].
        eapply same_settings_trans; [exact Hset|].
        exact (IH _ _ _ _ _ Hrest).
      * intros [= <- <-]. exact Hset.
  - intros [= <- <-]. apply same_settings_refl.
Qed.

Lemma fetch_loop_windows fuel : forall count start t effects o,
  fetch_loop fuel supabase count start t = Some (effects, o) ->
  exists pages,
    windows_awaited effects = windows_from start pages
    /\ (0 < Z.of_nat pages ->
        start + (Z.of_nat pages - 1) * pageSize < count).
Proof.
  induction fuel as [|fuel IH]; intros count start t effects o;
    [discriminate|].
  cbn [fetch_loop]. destruct (start <? count) eqn:Hlt.
  - apply Z.ltb_lt in Hlt. destruct (Response.error _).
    + intros [= <- <-]. exists 1%nat. split; [reflexivity|].
      intros _. unfold pageSize. simpl. lia.
    + destruct (ingest _ t) as [[] t1|e t1].
      * destruct (fetch_loop fuel supabase count (start + pageSize) t1)
          as [[effects' o']|] eqn:Hrest; [|discriminate].
        intros [= <- <-].
        destruct (IH _ _ _ _ _ Hrest) as (pages & Hw & Hbound).
        exists (S pages). split.
        -- cbn [windows_awaited]. rewrite window_of_fetchQuery.
           cbn [windows_from]. now rewrite Hw.
        -- intros _. unfold pageSize in *.
           destruct pages as [|pages]; [simpl; lia|].
           specialize (Hbound ltac:(lia)). lia.
      * intros [= <- <-]. exists 1%nat. split; [reflexivity|].
        intros _. unfold pageSize. simpl. lia.
  - intros [= <- <-]. exists 0%nat. split; [reflexivity|]. simpl. lia.
Qed.
End InitialLoadMore.

(** X16. With no rows to load the initial load asks for nothing more: when
    the count query answers without error and the count is [null], zero
    or negative, only the count query is awaited, nothing is warned about
    and the table is unchanged. *)
Theorem initial_load_without_rows (supabase : Query.t -> Response.t)
    (t : Table) :
  Response.error (supabase (countQuery t)) = false ->
  (Response.count (supabase (countQuery t)) = None
   \/ exists n, Response.count (supabase (countQuery t)) = Some n /\ n <= 0) ->
  _addInitialRows supabase t = Some ([Awaited (countQuery t)], Returned tt t).
Proof.
  intros Herr Hcount. unfold _addInitialRows. cbv zeta. rewrite Herr.
  destruct Hcount as [-> | (n & -> & Hn)]; [reflexivity|].
  cbn [orb no_count]. destruct (n =? 0) eqn:Hz; [reflexivity|].
  cbn [fetch_loop].
  destruct (0 <? n) eqn:Hlt; [apply Z.ltb_lt in Hlt; lia | reflexivity].
Qed.

Lemma initial_load_without_rows_witness :
  _addInitialRows (fun _ => Response.mk None (Some 0) false) (scores false)
  = Some ([Awaited (countQuery (scores false))], Returned tt (scores false)).
Proof.
  apply initial_load_without_rows; [reflexivity|].
  right. exists 0. split; [reflexivity | lia].
Defined.

(** X17. Push events and the initial load change nothing but the cache:
    the name, the primary keys, the ConditionSet, the backup log, the
    optimistic flag and the prefilter of the table are as before, also
    when the initial load ends in an exception. *)
Theorem only_the_cache_changes {rel : Relational} (t : Table) :
  (forall payload t',
     on_postgres_changes payload t = Ok t' -> t' = with_store t (__store t'))
  /\ (forall supabase effects o,
        _addInitialRows supabase t = Some (effects, o) ->
        table_after o = with_store t (__store (table_after o))).
Proof.
  split.
  - intros payload t'. apply on_postgres_changes_settings.
  - intros supabase effects o. unfold _addInitialRows. cbv zeta.
    destruct (Response.error _ || no_count _).
    + intros [= <- <-]. apply same_settings_refl.
    + destruct (Response.count _) as [count|].
      * destruct (fetch_loop _ supabase count 0 t) as [[effects' o']|] eqn:Hl;
          [|discriminate].
        intros [= <- <-].
        exact (fetch_loop_settings supabase _ _ _ _ _ _ Hl).
      * intros [= <- <-]. apply same_settings_refl.
Qed.

Lemma only_the_cache_changes_witness :
  exists t',
    on_postgres_changes (pushed "DELETE" 1) in_flight = Ok t'
    /\ t' = with_store in_flight (__store t').
Proof.
  destruct (@only_the_cache_changes integer_cells in_flight) as [Hpush _].
  eexists. split; [reflexivity|].
  apply (Hpush (pushed "DELETE" 1)). reflexivity.
Defined.

(** X18. However the initial load ends (all pages fetched, a page failed,
    or a row made ingestion throw), the windows it awaited are the first
    windows of 1000 rows from offset 0, in order, with no gap and none
    twice, and each of them starts below the count. *)
Theorem initial_load_windows_in_order (supabase : Query.t -> Response.t)
    (t : Table) (effects : list effect) (o : outcome unit) :
  _addInitialRows supabase t = Some (effects, o) ->
  exists pages,
    windows_awaited effects = windows pages
    /\ (0 < Z.of_nat pages ->
        exists count,
          Response.count (supabase (countQuery t)) = Some count
          /\ (Z.of_nat pages - 1) * pageSize < count).
Proof.
  unfold _addInitialRows. cbv zeta.
  destruct (Response.error _ || no_count _).
  - intros [= <- <-]. exists 0%nat.
    split; [now destruct (Response.error _) | simpl; lia].
  - destruct (Response.count _) as [count|].
    + destruct (fetch_loop _ supabase count 0 t) as [[effects' o']|] eqn:Hl;
        [|discriminate].
      intros [= <- <-].
      destruct (fetch_loop_windows supabase _ _ _ _ _ _ Hl)
        as (pages & Hw & Hbound).
      exists pages. split; [exact Hw|].
      intros Hpos. exists count. split; [reflexivity|].
      specialize (Hbound Hpos). lia.
    + intros [= <- <-]. exists 0%nat. split; [reflexivity | simpl; lia].
Qed.

Lemma initial_load_windows_in_order_witness :
  exists pages,
    windows_awaited
      (Awaited (countQuery (scores false))
       :: map (fun w => Awaited (window_query (scores false) w))
              [(0, 999); (1000, 1999); (2000, 2999)])
    = windows pages.
Proof.
  destruct (initial_load_windows_in_order backend_2500 (scores false)
              (Awaited (countQuery (scores false))
               :: map (fun w => Awaited (window_query (scores false) w))
                      [(0, 999); (1000, 1999); (2000, 2999)])
              (Returned tt
                 (with_store (scores false)
                    [(PStr "1", score_data 0);
                     (PStr "a", VObj [("id", PStr "a"); ("score", PNum 1)]);
                     (PStr "b", VObj [("id", PStr "b"); ("score", PNum 2)]);
                     (PStr "c", VObj [("id", PStr "c"); ("score", PNum 3)])]))
              eq_refl) as (pages & Hw & _).
  exists pages. exact Hw.
Defined.

(** ** Sequences of events *)

Lemma parse_with_store (payload : Payload.t) t s :
  __parseSubscriptionPayload payload (with_store t s)
  = __parseSubscriptionPayload payload t.
Proof. now destruct t. Qed.

(** X19. Eviction on drift.  A row that a push INSERT or UPDATE brought
    into the cache while it passed the ConditionSet is found by [getRow];
    when a later push event about the same identity carries a row that
    fails the ConditionSet, [getRow] no longer finds it, whatever the kind
    of that event. *)
Theorem eviction_on_drift {rel : Relational} (t : Table)
    (arrival drift : Payload.t) (data data' : jsval) (id : string)
    (event event' : string) (timestamp timestamp' : Date) :
  one_entry_per_identity (__store t) ->
  PessimisticBackup.has (PStr id) (pessimisticBackup t) = false ->
  __parseSubscriptionPayload arrival t
  = Ok (VTableRow data id, event, timestamp) ->
  checkConditions (VTableRow data id) (conditions t) = Ok true ->
  event = "INSERT" \/ event = "UPDATE" ->
  __parseSubscriptionPayload drift t
  = Ok (VTableRow data' id, event', timestamp') ->
  checkConditions (VTableRow data' id) (conditions t) = Ok false ->
  exists t1 t2,
    on_postgres_changes arrival t = Ok t1
    /\ getRow (VPrim (PStr id)) t1 = Ok (Some data)
    /\ on_postgres_changes drift t1 = Ok t2
    /\ getRow (VPrim (PStr id)) t2 = Ok None.
Proof.
  intros Hone Hhas Hparse Hcheck Hkind Hparse' Hcheck'.
  exists (with_store t (TableStore.store_upsert (PStr id) data (__store t))).
  eexists. split; [|split; [|split]].
  - rewrite (on_postgres_changes_parsed arrival t _ _ _ _ Hparse Hcheck).
    cbn [Bool.eqb].
    assert (Hk : String.eqb event "INSERT" || String.eqb event "UPDATE" = true)
      by (destruct Hkind as [-> | ->]; reflexivity).
    rewrite Hk, _upsertInternal_TableRow_pushed. now rewrite Hhas.
  - destruct t. unfold getRow, TableStore.getRow. simpl.
    unfold TableStore.store_get, TableStore.store_upsert.
    now rewrite get_set_same.
  - rewrite (on_postgres_changes_parsed drift _ (VTableRow data' id) event'
               timestamp' false).
    + cbn [Bool.eqb]. apply _deleteInternal_TableRow.
    + now rewrite parse_with_store.
    + destruct t. exact Hcheck'.
  - destruct t as [nm ks st cs lg opt pf]. simpl in Hone.
    unfold getRow, TableStore.getRow. simpl.
    unfold TableStore.store_get, TableStore.store_remove,
      TableStore.store_upsert.
    rewrite get_delete_same; [reflexivity|].
    now apply set_one_entry.
Qed.

Lemma eviction_on_drift_witness :
  exists t1 t2,
    on_postgres_changes (pushed "INSERT" 3)
      (addCondition below_five (scores false)) = Ok t1
    /\ getRow (VPrim (PStr "1")) t1 = Ok (Some (score_data 3))
    /\ on_postgres_changes (pushed "UPDATE" 8) t1 = Ok t2
    /\ getRow (VPrim (PStr "1")) t2 = Ok None.
Proof.
  apply (@eviction_on_drift integer_cells
           (addCondition below_five (scores false))
           (pushed "INSERT" 3) (pushed "UPDATE" 8)
           (score_data 3) (score_data 8) "1" "INSERT" "UPDATE"
           (mkDate (Some 1700000000000)) (mkDate (Some 1700000000000)));
    [repeat constructor; simpl; tauto | reflexivity | reflexivity
    | reflexivity | left; reflexivity | reflexivity | reflexivity].
Defined.

(** X20. Without optimistic mode (the default of the constructor), on a
    table with no pending backup of the row's identity, [update] and
    [delete] never return: whatever status the remote call answered,
    [update] throws on restoring from a backup that does not exist, and
    [delete] throws "Row not found in backup" on releasing it; the table
    is left as it was. *)
Theorem mutations_without_optimistic_mode_throw (t : Table) (r : jsval)
    (id : prim) (now : Date) (http : Z) :
  optimisticUpdates t = false ->
  get_id r = Ok id ->
  PessimisticBackup.has id (pessimisticBackup t) = false ->
  (exists e, update now r http t = Thrown e t)
  /\ delete r http t = Thrown RowNotFoundInBackup t.
Proof.
  intros Hopt Hid Hhas. split.
  - apply update_nonoptimistic_throws with id; [assumption..|].
    now apply has_false_get.
  - now apply delete_nonoptimistic_throws with id.
Qed.

Lemma mutations_without_optimistic_mode_throw_witness :
  (exists e,
     update (mkDate (Some 0)) (score_row 5) 201 (scores false)
     = Thrown e (scores false))
  /\ delete (score_row 5) 201 (scores false)
     = Thrown RowNotFoundInBackup (scores false).
Proof.
  apply (mutations_without_optimistic_mode_throw (scores false)
           (score_row 5) (PStr "1") (mkDate (Some 0)) 201);
    reflexivity.
Defined.
